(** * scripts/verify_e2e_data.py: frontmatter parser, page scanner, verifier

    A shallow embedding of [parse_frontmatter], [scan_pages] and [main].
    Python [str] values are lists of Unicode code points, the [dict] built by
    the parser is a [gmap], exceptions are a [result] type, and the script's
    interaction with the file system and with standard output is a reader /
    writer monad that logs every operation it performs. *)

From Stdlib Require Import ZArith NArith Ascii String DecimalString.
From stdpp Require Import gmap list strings.

Local Open Scope Z_scope.

(** ** Python strings *)

Module Str.

(** A character is a Unicode code point; a [str] is a list of them. *)
Abbreviation char := N (only parsing).
Abbreviation str := (list N) (only parsing).

(** A source-code literal (ASCII only). *)
Definition lit (s : string) : str := N_of_ascii <$> list_ascii_of_string s.

Definition NL : N := 10%N.
Definition COLON : N := 58%N.

(** [str.isspace] on one character, the table of CPython's
    [_PyUnicode_IsWhitespace]. *)
Definition isspace (c : char) : bool :=
  ((0x09 <=? c) && (c <=? 0x0D) || (0x1C <=? c) && (c <=? 0x20)
   || (c =? 0x85) || (c =? 0xA0) || (c =? 0x1680)
   || (0x2000 <=? c) && (c <=? 0x200A)
   || (c =? 0x2028) || (c =? 0x2029) || (c =? 0x202F) || (c =? 0x205F)
   || (c =? 0x3000))%N.

(** [s.startswith(prefix)] *)
Fixpoint startswith (s prefix : str) : bool :=
  match prefix, s with
  | [], _ => true
  | _ :: _, [] => false
  | a :: prefix', b :: s' => (a =? b)%N && startswith s' prefix'
  end.

(** Bounds of a slice or of a search, as Python normalises them: a negative
    index counts from the end, and everything is clipped to [0, n]. *)
Definition clip (n i : Z) : Z :=
  if i <? 0 then Z.max 0 (i + n) else Z.min i n.

(** [s[lo:hi]] *)
Definition slice (s : str) (lo hi : Z) : str :=
  let n := Z.of_nat (length s) in
  let lo := clip n lo in
  let hi := clip n hi in
  take (Z.to_nat (hi - lo)) (drop (Z.to_nat lo) s).

(** [s[lo:]] *)
Definition slice_from (s : str) (lo : Z) : str :=
  drop (Z.to_nat (clip (Z.of_nat (length s)) lo)) s.

(** The scan behind [find]: [s] is the text from index [pos] on. *)
Fixpoint find_at (s sub : str) (pos : Z) : Z :=
  if startswith s sub then pos
  else match s with
       | [] => -1
       | _ :: s' => find_at s' sub (pos + 1)
       end.

(** [s.find(sub, start)]: the lowest index at or after [start] where [sub]
    occurs, or -1. *)
Definition find (s sub : str) (start : Z) : Z :=
  let n := Z.of_nat (length s) in
  let start := if start <? 0 then Z.max 0 (start + n) else start in
  if n <? start then -1
  else find_at (drop (Z.to_nat start) s) sub start.

(** [sub in s] *)
Definition contains (s sub : str) : bool := negb (find s sub 0 =? -1).

(** [s.split(sep, maxsplit)] for a one-character separator; a negative
    [maxsplit] (Python's default -1) puts no limit on the number of cuts. *)
Fixpoint split (s : str) (sep : char) (maxsplit : Z) : list str :=
  match s with
  | [] => [[]]
  | c :: s' =>
      if (c =? sep)%N && negb (maxsplit =? 0) then
        [] :: split s' sep (maxsplit - 1)
      else
        match split s' sep maxsplit with
        | piece :: rest => (c :: piece) :: rest
        | [] => [[c]]
        end
  end.

Fixpoint lstrip (s : str) : str :=
  match s with
  | c :: s' => if isspace c then lstrip s' else s
  | [] => []
  end.

Definition rstrip (s : str) : str := reverse (lstrip (reverse s)).

(** [s.strip()] *)
Definition strip (s : str) : str := lstrip (rstrip s).

(** [str(n)] for a non-negative integer. *)
Definition of_nat (n : nat) : str :=
  lit (NilZero.string_of_uint (Nat.to_uint n)).

End Str.

Import Str.

(** ** Exceptions *)

Inductive exn :=
| ValueError
| FileNotFoundError (p : list str)
| NotADirectoryError (p : list str)
| IsADirectoryError (p : list str)
| UnicodeDecodeError (p : list str)
| PermissionError (p : list str).

Inductive result (A : Type) :=
| Ok (a : A)
| Raise (e : exn).
Arguments Ok {A} a.
Arguments Raise {A} e.

#[global] Instance result_ret : MRet result := @Ok.
#[global] Instance result_bind : MBind result := λ A B f m,
  match m with
  | Ok a => f a
  | Raise e => Raise e
  end.

(** A [for] loop over [xs] whose body updates the loop-carried value. *)
Fixpoint for_in `{MBind M, MRet M} {A S : Type}
    (xs : list A) (s : S) (body : S → A → M S) : M S :=
  match xs with
  | [] => mret s
  | x :: xs' => s' ← body s x; for_in xs' s' body
  end.

(** ** parse_frontmatter *)

Definition DELIM : str := lit "---".
Definition TERMINATOR : str := NL :: DELIM ++ [NL].

(** The body of the [for line in ...] loop: one header line. *)
Definition parse_line (fm : gmap str str) (line : str)
  : result (gmap str str) :=
  if contains line [COLON] then
    match split line COLON 1 with
    | [k; v] => Ok (<[strip k := strip v]> fm)
    | _ => Raise ValueError
    end
  else Ok fm.

Definition parse_frontmatter (content : str)
  : result (gmap str str * str) :=
  if negb (startswith content DELIM) then Ok (∅, content)
  else
    let end_ := find content TERMINATOR 3 in
    if end_ =? -1 then Ok (∅, content)
    else
      fm ← for_in (split (slice content 4 end_) NL (-1)) ∅ parse_line;
      Ok (fm, slice_from content (end_ + 5)).

(** ** The file system and the console *)

(** A path is the list of components below [DATA_DIR]. *)
Abbreviation path := (list (list N)) (only parsing).

(** Why [read_text] fails on a regular file: its bytes are not valid in the
    encoding, or it may not be opened. *)
Inductive read_failure :=
| Undecodable
| Forbidden.

(** A regular file whose bytes decode to [text], a directory with its
    listing, or a regular file that cannot be read as text. *)
#[warnings="-register-all"]
Inductive node :=
| File (text : str)
| Dir (entries : list (str * node))
| Unreadable (why : read_failure).

(** The entry of a directory listing that a name refers to. *)
Fixpoint lookup_entry (name : str) (entries : list (str * node))
  : option node :=
  match entries with
  | [] => None
  | (n, x) :: entries' =>
      if decide (n = name) then Some x else lookup_entry name entries'
  end.

Fixpoint resolve (root : node) (p : path) : option node :=
  match p with
  | [] => Some root
  | name :: p' =>
      match root with
      | Dir entries => x ← lookup_entry name entries; resolve x p'
      | File _ | Unreadable _ => None
      end
  end.

(** What the script can observe of the world: the tree at [DATA_DIR], or
    [None] when nothing is there. *)
Definition at_path (fs : option node) (p : path) : option node :=
  root ← fs; resolve root p.

(** Every file-system call and every printed line is logged, in order. *)
Inductive event :=
| Exists (p : path)
| IsDir (p : path)
| Iterdir (p : path)
| ReadText (p : path)
| Printed (line : str)
| Traceback (e : exn).

Definition IO (A : Type) : Type := option node → list event * result A.

#[global] Instance io_ret : MRet IO := λ A a fs, ([], Ok a).
#[global] Instance io_bind : MBind IO := λ A B f m fs,
  match m fs with
  | (t, Ok a) => let '(t', r) := f a fs in (t ++ t', r)
  | (t, Raise e) => (t, Raise e)
  end.

(** [p.exists()] *)
Definition exists_ (p : path) : IO bool := λ fs,
  ([Exists p],
   Ok (match at_path fs p with Some _ => true | None => false end)).

(** [p.is_dir()] *)
Definition is_dir (p : path) : IO bool := λ fs,
  ([IsDir p],
   Ok (match at_path fs p with Some (Dir _) => true | _ => false end)).

(** [p.iterdir()], in the order of the directory listing. *)
Definition iterdir (p : path) : IO (list path) := λ fs,
  ([Iterdir p],
   match at_path fs p with
   | Some (Dir entries) => Ok ((λ e, p ++ [e.1]) <$> entries)
   | Some (File _) | Some (Unreadable _) => Raise (NotADirectoryError p)
   | None => Raise (FileNotFoundError p)
   end).

(** [p.read_text()] *)
Definition read_text (p : path) : IO str := λ fs,
  ([ReadText p],
   match at_path fs p with
   | Some (File text) => Ok text
   | Some (Dir _) => Raise (IsADirectoryError p)
   | Some (Unreadable Undecodable) => Raise (UnicodeDecodeError p)
   | Some (Unreadable Forbidden) => Raise (PermissionError p)
   | None => Raise (FileNotFoundError p)
   end).

Definition print (line : str) : IO unit := λ _, ([Printed line], Ok ()).

(** A pure computation that may raise. *)
Definition lift {A} (r : result A) : IO A := λ _, ([], r).

(** [p.name] *)
Definition name (p : path) : str := default [] (last p).

(** ** scan_pages *)

Definition DATA_DIR : path := [].

(** [str(DATA_DIR)]: pathlib prints [Path("./data")] as [data]. *)
Definition DATA_DIR_str : str := lit "data".

(** [(path, title, content)] *)
Definition Page : Type := list (list N) * list N * list N.
Definition item1 (p : Page) : str := p.1.2.
Definition item2 (p : Page) : str := p.2.

(** [fm.get(key, default)] *)
Definition get (fm : gmap (list N) (list N)) (key dflt : str) : str :=
  default dflt (fm !! key).

(** The body of [for node_dir in ws_dir.iterdir()]. *)
Definition scan_node (pages : list Page) (node_dir : path)
  : IO (list Page) :=
  d ← is_dir node_dir;
  if negb d || startswith (name node_dir) (lit ".") then mret pages
  else
    let index_md := node_dir ++ [lit "index.md"] in
    e ← exists_ index_md;
    if e : bool then
      text ← read_text index_md;
      '(fm, body) ← lift (parse_frontmatter text);
      mret (pages ++ [(index_md, get fm (lit "title") [], strip body)])
    else mret pages.

(** The body of [for ws_dir in DATA_DIR.iterdir()]. *)
Definition scan_workspace (pages : list Page) (ws_dir : path)
  : IO (list Page) :=
  d ← is_dir ws_dir;
  if negb d || startswith (name ws_dir) (lit ".") then mret pages
  else
    node_dirs ← iterdir ws_dir;
    for_in node_dirs pages scan_node.

Definition scan_pages : IO (list Page) :=
  let pages := [] in
  ws_dirs ← iterdir DATA_DIR;
  for_in ws_dirs pages scan_workspace.

(** ** main *)

(** Python's truth value of a list. *)
Definition truthy {A} (l : list A) : bool :=
  match l with [] => false | _ :: _ => true end.

(** [if cond: errors.append(msg)] *)
Definition append_if (cond : bool) (errors : list str) (msg : str)
  : list str :=
  if cond then errors ++ [msg] else errors.

(** Lines 51-79: the six checks, each appending to [errors]. *)
Definition checks (pages : list Page) : list str :=
  let errors := [] in
  let renamed := filter (λ p, item1 p = lit "RENAMED PAGE TITLE") pages in
  let old_title := filter (λ p, item1 p = lit "Page To Rename") pages in
  let errors := append_if (negb (truthy renamed)) errors
    (lit "No 'RENAMED PAGE TITLE' pages - flush on navigation broken") in
  let errors := append_if (truthy old_title) errors
    (lit "Found " ++ of_nat (length old_title)
       ++ lit " 'Page To Rename' pages - rename was lost") in
  let final_rename := filter (λ p, item1 p = lit "FINAL RENAME") pages in
  let errors := append_if (negb (truthy final_rename)) errors
    (lit "No 'FINAL RENAME' pages - rapid rename broken") in
  let modified_content :=
    filter (λ p, contains (item2 p) (lit "MODIFIED CONTENT") = true) pages in
  let errors := append_if (negb (truthy modified_content)) errors
    (lit "No pages with 'MODIFIED CONTENT' - content flush broken") in
  let new_title := filter (λ p, item1 p = lit "NEW TITLE") pages in
  let errors := append_if (negb (truthy new_title)) errors
    (lit "No 'NEW TITLE' pages - combined flush broken") in
  let updated_title := filter (λ p, item1 p = lit "Updated Title") pages in
  let errors := append_if (negb (truthy updated_title)) errors
    (lit "No 'Updated Title' pages - autosave broken") in
  errors.

(** Lines 47-89: what [main] does with the scanned pages. *)
Definition verify (pages : list Page) : IO Z :=
  if negb (truthy pages) then
    _ ← print (lit "ERROR: No pages found");
    mret 1
  else
    let errors := checks pages in
    _ ← print (lit "Scanned " ++ of_nat (length pages) ++ lit " pages in "
                 ++ DATA_DIR_str);
    if truthy errors then
      _ ← for_in errors () (λ _ e, print (lit "ERROR: " ++ e));
      mret 1
    else
      _ ← print (lit "All e2e data verifications passed");
      mret 0.

Definition main : IO Z :=
  ex ← exists_ DATA_DIR;
  if negb ex then
    _ ← print (lit "ERROR: " ++ DATA_DIR_str ++ lit " does not exist");
    mret 1
  else
    pages ← scan_pages;
    verify pages.

(** [sys.exit(main())]: the log of the run and the exit status of the
    process; an exception that nothing catches ends it with a traceback and
    status 1. *)
Definition script (fs : option node) : list event * Z :=
  match main fs with
  | (t, Ok status) => (t, status)
  | (t, Raise e) => (t ++ [Traceback e], 1)
  end.

(** The lines printed on standard output. *)
Definition stdout (t : list event) : list str :=
  t ≫= λ ev, match ev with Printed line => [line] | _ => [] end.

(** ** Vocabulary of the statements *)

(** [sub] occurs in [s] at index [i]. *)
Definition occurs_at (s sub : str) (i : nat) : Prop :=
  ∃ pre post, s = pre ++ sub ++ post ∧ length pre = i.

(** [e] is the lowest index at or after [start] where [sub] occurs. *)
Definition first_occurrence (s sub : str) (start e : nat) : Prop :=
  (start ≤ e)%nat ∧ occurs_at s sub e
  ∧ ∀ i, (start ≤ i < e)%nat → ¬ occurs_at s sub i.

(** [sep.join(pieces)] for a one-character separator. *)
Fixpoint join (sep : N) (pieces : list str) : str :=
  match pieces with
  | [] => []
  | [p] => p
  | p :: ps => p ++ sep :: join sep ps
  end.

(** The line has a colon; cut at the first one and trimmed on both sides,
    it reads [key: value]. *)
Definition header_entry (line key value : str) : Prop :=
  ∃ k v, line = k ++ COLON :: v ∧ (COLON ∉ k)
         ∧ key = strip k ∧ value = strip v.

(** [lines !! i] is the last line of the header that sets [key]. *)
Definition last_entry (lines : list str) (key value : str) : Prop :=
  ∃ i line, lines !! i = Some line ∧ header_entry line key value
    ∧ ∀ j line' value', (i < j)%nat → lines !! j = Some line' →
        ¬ header_entry line' key value'.

(** What a computation returns or raises, leaving its log aside. *)
Definition outcome {A} (m : IO A) (fs : option node) : result A := (m fs).2.

(** [p] is a directory of the tree whose name does not start with a dot. *)
Definition visible_dir (root : node) (p : path) : Prop :=
  (∃ entries, resolve root p = Some (Dir entries))
  ∧ startswith (name p) (lit ".") = false.

(** The page made from the text of an [index.md] file. *)
Definition is_page_of (index_md : path) (text : str) (p : Page) : Prop :=
  ∃ fm body, parse_frontmatter text = Ok (fm, body)
    ∧ p = (index_md, default [] (fm !! lit "title"), strip body).



(** The pages are the [index.md] files of the visible nodes of the visible
    workspaces. *)
Definition pages_of_tree (root : node) (pages : list Page) : Prop :=
  ∀ p, p ∈ pages ↔
    ∃ ws nd text,
      visible_dir root [ws] ∧ visible_dir root [ws; nd]
      ∧ resolve root [ws; nd; lit "index.md"] = Some (File text)
      ∧ is_page_of [ws; nd; lit "index.md"] text p.



(** ** Example inputs *)

Definition content_foo : str :=
  lit "---" ++ [NL] ++ lit "title: Foo" ++ [NL] ++ lit "---" ++ [NL]
    ++ lit "Body text".

Definition text_renamed : str :=
  lit "---" ++ [NL] ++ lit "title: RENAMED PAGE TITLE" ++ [NL] ++ lit "---"
    ++ [NL] ++ lit "hello".

Definition text_stale : str :=
  lit "---" ++ [NL] ++ lit "title: Page To Rename" ++ [NL] ++ lit "---"
    ++ [NL] ++ lit "x".

(** Workspace [w1] with the nodes [n1] and [n2]. *)
Definition entries_w1 : list (list N * node) :=
  [(lit "w1", Dir [(lit "n1", Dir [(lit "index.md", File text_renamed)]);
                   (lit "n2", Dir [(lit "index.md", File text_stale)])])].

Definition text_final : str :=
  lit "---" ++ [NL] ++ lit "title: FINAL RENAME" ++ [NL] ++ lit "---"
    ++ [NL] ++ lit "MODIFIED CONTENT here".

Definition text_new : str :=
  lit "---" ++ [NL] ++ lit "title: NEW TITLE" ++ [NL] ++ lit "---"
    ++ [NL] ++ lit "y".

Definition text_updated : str :=
  lit "---" ++ [NL] ++ lit "title: Updated Title" ++ [NL] ++ lit "---"
    ++ [NL] ++ lit "z".

(** The nodes [n1] to [n4] hold pages that satisfy all six predicates; in
    node [n5], [index.md] is a directory. *)
Definition entries_index_dir : list (list N * node) :=
  [(lit "w1", Dir [(lit "n1", Dir [(lit "index.md", File text_renamed)]);
                   (lit "n2", Dir [(lit "index.md", File text_final)]);
                   (lit "n3", Dir [(lit "index.md", File text_new)]);
                   (lit "n4", Dir [(lit "index.md", File text_updated)]);
                   (lit "n5", Dir [(lit "index.md", Dir [])])])].

Definition page_n1 : Page :=
  ([lit "w1"; lit "n1"; lit "index.md"], lit "RENAMED PAGE TITLE",
   lit "hello").
Definition page_n2 : Page :=
  ([lit "w1"; lit "n2"; lit "index.md"], lit "Page To Rename", lit "x").

(** ** The six predicates and the lines of the report *)

(** Some page has exactly this title. *)
Definition has_title (title : str) (pages : list Page) : Prop :=
  ∃ p, p ∈ pages ∧ item1 p = title.

(** No page has exactly this title. *)
Definition no_title (title : str) (pages : list Page) : Prop :=
  ∀ p, p ∈ pages → item1 p ≠ title.

(** Some page has a body in which [sub] occurs. *)
Definition has_body_with (sub : str) (pages : list Page) : Prop :=
  ∃ p i, p ∈ pages ∧ occurs_at (item2 p) sub i.

(** The number of pages with exactly this title. *)
Definition count_title (title : str) (pages : list Page) : nat :=
  length (filter (λ p, item1 p = title) pages).

Definition pred1 := has_title (lit "RENAMED PAGE TITLE").
Definition pred2 := no_title (lit "Page To Rename").
Definition pred3 := has_title (lit "FINAL RENAME").
Definition pred4 := has_body_with (lit "MODIFIED CONTENT").
Definition pred5 := has_title (lit "NEW TITLE").
Definition pred6 := has_title (lit "Updated Title").

Definition all_pass (pages : list Page) : Prop :=
  pred1 pages ∧ pred2 pages ∧ pred3 pages ∧ pred4 pages ∧ pred5 pages
  ∧ pred6 pages.

Definition msg1 : str :=
  lit "No 'RENAMED PAGE TITLE' pages - flush on navigation broken".
Definition msg2 (count : nat) : str :=
  lit "Found " ++ of_nat count ++ lit " 'Page To Rename' pages - rename was lost".
Definition msg3 : str := lit "No 'FINAL RENAME' pages - rapid rename broken".
Definition msg4 : str :=
  lit "No pages with 'MODIFIED CONTENT' - content flush broken".
Definition msg5 : str := lit "No 'NEW TITLE' pages - combined flush broken".
Definition msg6 : str := lit "No 'Updated Title' pages - autosave broken".

(** A check contributes nothing when its predicate holds and its one message
    when it does not. *)
Definition reports (holds : Prop) (msg : str) (errs : list str) : Prop :=
  (holds ∧ errs = []) ∨ (¬ holds ∧ errs = [msg]).

Definition summary_line (count : nat) : str :=
  lit "Scanned " ++ of_nat count ++ lit " pages in data".
Definition error_line (e : str) : str := lit "ERROR: " ++ e.
Definition success_line : str := lit "All e2e data verifications passed".
Definition missing_root_line : str := lit "ERROR: data does not exist".
Definition no_pages_line : str := lit "ERROR: No pages found".

(** The scan ran on an existing root and returned [pages]. *)
Definition scanned (fs : option node) (pages : list Page) : Prop :=
  is_Some fs ∧ outcome scan_pages fs = Ok pages.

(** The scan ran on an existing root and was ended by an exception. *)
Definition scan_raises (fs : option node) : Prop :=
  is_Some fs ∧ ∃ e, outcome scan_pages fs = Raise e.

(** A computation that prints nothing. *)
Definition silent {A} (m : IO A) : Prop := ∀ fs, stdout (m fs).1 = [].

(** ** Vocabulary of the further properties *)

(** What every scanned page looks like. *)
Definition page_shape (p : Page) : Prop :=
  ∃ ws nd,
    p.1.1 = [ws; nd; lit "index.md"]
    ∧ startswith ws (lit ".") = false ∧ startswith nd (lit ".") = false
    ∧ strip (item1 p) = item1 p ∧ (NL ∉ item1 p)
    ∧ strip (item2 p) = item2 p.

(** [p] is a directory whose name does not start with a dot. *)
Definition shown (fs : option node) (p : path) : Prop :=
  (∃ entries, at_path fs p = Some (Dir entries))
  ∧ startswith (name p) (lit ".") = false.

(** The calls the scan makes: it lists the root and the workspaces it
    enters, tests the entries of these for being directories, and looks for
    and reads [index.md] in the nodes it enters; it enters only directories
    whose name does not start with a dot, reads only what exists, and prints
    nothing. *)
Definition scan_event (fs : option node) (ev : event) : Prop :=
  match ev with
  | Iterdir [] => True
  | Iterdir [ws] => shown fs [ws]
  | IsDir [ws] => True
  | IsDir [ws; nd] => shown fs [ws]
  | Exists [ws; nd; file] =>
      file = lit "index.md" ∧ shown fs [ws] ∧ shown fs [ws; nd]
  | ReadText [ws; nd; file] =>
      file = lit "index.md" ∧ shown fs [ws] ∧ shown fs [ws; nd]
      ∧ is_Some (at_path fs [ws; nd; file])
  | _ => False
  end.

(** The six messages, in the order of the checks. *)
Definition all_messages (stale : nat) : list str :=
  [msg1; msg2 stale; msg3; msg4; msg5; msg6].

(** One header line, [key: value]. *)
Definition render_line (entry : list N * list N) : str :=
  entry.1 ++ COLON :: 32%N :: entry.2.

(** A file: the delimiter line, one line for each entry, the delimiter line
    again, then the body. *)
Definition render (entries : list (list N * list N)) (body : str) : str :=
  DELIM ++ [NL] ++ join NL (render_line <$> entries) ++ TERMINATOR ++ body.

(** A key and a value as the parser returns them. *)
Definition entry_ok (entry : list N * list N) : Prop :=
  strip entry.1 = entry.1 ∧ strip entry.2 = entry.2
  ∧ (NL ∉ entry.1) ∧ (NL ∉ entry.2) ∧ (COLON ∉ entry.1).




(** The same file without body and without the newline that ends the
    closing delimiter line. *)
Definition render_unterminated (entries : list (list N * list N)) : str :=
  DELIM ++ [NL] ++ join NL (render_line <$> entries) ++ [NL] ++ DELIM.

(** * scripts/lint_binaries.py: binary files among the tracked files *)

Module Lint.

Definition SLASH : N := 47%N.
Definition DOT : N := 46%N.

(** [str.splitlines()]: the characters that end a line. *)
Definition is_linebreak (c : N) : bool :=
  ((c =? 0x0A) || (c =? 0x0D) || (c =? 0x0B) || (c =? 0x0C) || (c =? 0x1C)
   || (c =? 0x1D) || (c =? 0x1E) || (c =? 0x85) || (c =? 0x2028)
   || (c =? 0x2029))%N.

(** The scan behind [splitlines]: [cur] is the line read so far.  A carriage
    return followed by a line feed ends one line, and there is no empty last
    line after a final line end. *)
Fixpoint splitlines_from (s : str) (cur : str) : list str :=
  match s with
  | [] => match cur with [] => [] | _ :: _ => [cur] end
  | c :: s' =>
      if is_linebreak c then
        cur :: match s' with
               | d :: s'' =>
                   if (c =? 0x0D)%N && (d =? 0x0A)%N
                   then splitlines_from s'' []
                   else splitlines_from s' []
               | [] => splitlines_from s' []
               end
      else splitlines_from s' (cur ++ [c])
  end.

(** [s.splitlines()] *)
Definition splitlines (s : str) : list str := splitlines_from s [].

(** The scan behind [rfind]: [best] is the last index seen so far. *)
Fixpoint rfind_from (s : str) (c : N) (pos best : Z) : Z :=
  match s with
  | [] => best
  | x :: s' => rfind_from s' c (pos + 1) (if (x =? c)%N then pos else best)
  end.

(** [s.rfind(c)] for one character: the highest index of [c], or -1. *)
Definition rfind (s : str) (c : N) : Z := rfind_from s c 0 (-1).

(** The [while filenameIndex < dotIndex] loop of [genericpath._splitext],
    which skips the leading dots of the last component; it runs at most
    [fuel] = [dotIndex - filenameIndex] times. *)
Fixpoint splitext_loop (p : str) (dotIndex : Z) (fuel : nat)
    (filenameIndex : Z) : str * str :=
  match fuel with
  | O => (p, slice p 0 0)
  | S fuel' =>
      if filenameIndex <? dotIndex then
        if bool_decide (slice p filenameIndex (filenameIndex + 1) ≠ [DOT])
        then (slice p 0 dotIndex, slice_from p dotIndex)
        else splitext_loop p dotIndex fuel' (filenameIndex + 1)
      else (p, slice p 0 0)
  end.

(** [os.path.splitext(p)] of [posixpath]. *)
Definition splitext (p : str) : str * str :=
  let sepIndex := rfind p SLASH in
  let dotIndex := rfind p DOT in
  if sepIndex <? dotIndex then
    let filenameIndex := sepIndex + 1 in
    splitext_loop p dotIndex (Z.to_nat (dotIndex - filenameIndex))
      filenameIndex
  else (p, slice p 0 0).

(** What a path names: nothing or something that is not a regular file, a
    regular file with its bytes, or a regular file that cannot be opened or
    read. *)
Inductive entry :=
| NoFile
| Regular (content : list Byte.byte)
| Unreadable.

(** What [git ls-files] does: it prints the tracked files, or exits with a
    non-zero status ([e] is the text of the [CalledProcessError]), or cannot
    be run at all. *)
Inductive git :=
| GitOutput (text : str)
| GitCalledProcessError (e : str)
| GitNotRun.

Record world := World {
  git_ls_files : git;
  file : list N → entry
}.

(** [os.path.isfile(file_path)] *)
Definition isfile (w : world) (file_path : str) : bool :=
  match file w file_path with
  | NoFile => false
  | Regular _ | Unreadable => true
  end.

(** [open(file_path, "rb")] followed by [f.read(n)]; [None] when either
    raises. *)
Definition read_head (w : world) (file_path : str) (n : nat)
  : option (list Byte.byte) :=
  match file w file_path with
  | Regular content => Some (take n content)
  | NoFile | Unreadable => None
  end.

Definition is_binary (w : world) (file_path : str) : bool :=
  if negb (isfile w file_path) then false
  else
    match read_head w file_path 1024 with
    | Some chunk => existsb (Byte.eqb Byte.x00) chunk
    | None => false
    end.

Definition ALLOWED : list str :=
  [lit ".ico"; lit ".jpg"; lit ".gif"; lit ".png"; lit ".svg"; lit ".webp"].

(** The lines the script prints, on standard output or standard error. *)
Inductive output :=
| Stdout (line : str)
| Stderr (line : str).

(** How [main] ends: it returns a status, or an exception leaves it. *)
Inductive ending :=
| Return (status : Z)
| Uncaught.

(** The body of [for f in files]; [lower] is [str.lower]. *)
Definition step (lower : list N → list N) (w : world)
    (binaries : list str) (f : str) : list str :=
  if is_binary w f then
    let ext := lower (splitext f).2 in
    if bool_decide (ext ∈ ALLOWED) then binaries
    else binaries ++ [f]
  else binaries.

Definition main (lower : list N → list N) (w : world)
  : list output * ending :=
  match git_ls_files w with
  | GitCalledProcessError e =>
      ([Stderr (lit "Error running git: " ++ e)], Return 1)
  | GitNotRun => ([], Uncaught)
  | GitOutput text =>
      let files := splitlines text in
      let binaries := foldl (step lower w) [] files in
      if truthy binaries then
        (Stdout (lit "Error: Binary executables found in repository:")
           :: (Stdout <$> binaries),
         Return 1)
      else ([], Return 0)
  end.

(** [sys.exit(main())] *)
Definition exit_status (lower : list N → list N) (w : world) : Z :=
  match (main lower w).2 with
  | Return status => status
  | Uncaught => 1
  end.

(** Lower case for ASCII letters, an instance of [lower] on ASCII text. *)
Definition ascii_lower (s : str) : str :=
  (λ c, if (65 <=? c)%N && (c <=? 90)%N then (c + 32)%N else c) <$> s.

End Lint.

(** A tracked file that the lint reports: it looks binary and its lowered
    extension is not an allowed one. *)
Definition flagged (lower : list N → list N) (w : Lint.world) (f : str)
  : Prop :=
  Lint.is_binary w f = true ∧ lower (Lint.splitext f).2 ∉ Lint.ALLOWED.

(** The start of a path up to its last component: nothing, or a directory
    part ending with a slash. *)
Definition dir_prefix (prefix : str) : Prop :=
  prefix = [] ∨ ∃ dir, prefix = dir ++ [Lint.SLASH].

(** A world for examples: git lists three files; [bin/tool] and
    [assets/logo.png] start with a null byte, [README.md] has none. *)
Definition lint_world : Lint.world :=
  Lint.World
    (Lint.GitOutput (lit "README.md" ++ [NL] ++ lit "bin/tool" ++ [NL]
                       ++ lit "assets/logo.png" ++ [NL]))
    (λ p, if decide (p = lit "README.md") then Lint.Regular [Byte.x23]
          else if decide (p = lit "bin/tool")
               then Lint.Regular [Byte.x00; Byte.x01]
          else if decide (p = lit "assets/logo.png")
               then Lint.Regular [Byte.x00]
          else Lint.NoFile).
(** ** Facts about the string primitives *)

Section string_facts.
Implicit Types (s sub t : str) (c : N) (i j : nat).

Lemma startswith_prefix s sub :
  startswith s sub = true ↔ ∃ post, s = sub ++ post.
Proof.
  revert s. induction sub as [|a sub IH]; intros [|b s]; simpl.
  - split; eauto.
  - split; eauto.
  - split; [done | intros [? [=]]].
  - rewrite andb_true_iff, N.eqb_eq, IH. split.
    + intros [-> [post ->]]. eauto.
    + intros [post [= -> ->]]. eauto.
Qed.

Lemma occurs_at_0 s sub : occurs_at s sub 0 ↔ startswith s sub = true.
Proof.
  rewrite startswith_prefix. split.
  - intros (pre & post & -> & Hlen). destruct pre; [eauto | done].
  - intros [post ->]. by exists [], post.
Qed.

Lemma occurs_at_cons c s sub i :
  occurs_at (c :: s) sub (S i) ↔ occurs_at s sub i.
Proof.
  split.
  - intros (pre & post & Heq & Hlen). destruct pre as [|c' pre]; [done|].
    injection Heq as -> ->. exists pre, post. split; [done | by injection Hlen].
  - intros (pre & post & -> & <-). by exists (c :: pre), post.
Qed.

Lemma occurs_at_drop s sub n i :
  (n ≤ length s)%nat → occurs_at (drop n s) sub i ↔ occurs_at s sub (n + i).
Proof.
  revert s. induction n as [|n IH]; intros s Hn; [by rewrite drop_0|].
  destruct s as [|c s]; simpl in *; [lia|].
  rewrite occurs_at_cons. apply IH. lia.
Qed.

Lemma occurs_at_length s sub i :
  occurs_at s sub i → (i + length sub ≤ length s)%nat.
Proof. intros (pre & post & -> & <-). rewrite !length_app. lia. Qed.

Lemma find_at_unfold s sub pos :
  find_at s sub pos =
    if startswith s sub then pos
    else match s with [] => -1 | _ :: s' => find_at s' sub (pos + 1) end.
Proof. by destruct s. Qed.

Lemma find_at_spec s sub pos :
  (find_at s sub pos = -1 ∧ ∀ i, ¬ occurs_at s sub i)
  ∨ ∃ i, find_at s sub pos = pos + Z.of_nat i ∧ first_occurrence s sub 0 i.
Proof.
  assert (Hhit : ∀ s, startswith s sub = true → first_occurrence s sub 0 0).
  { intros s' Hs. split; [lia|]. split; [by apply occurs_at_0 | intros; lia]. }
  revert pos. induction s as [|c s IH]; intros pos;
    rewrite find_at_unfold.
  - destruct (startswith [] sub) eqn:Hs.
    + right. exists 0%nat. split; [lia | by apply Hhit].
    + left. split; [done|]. intros i Hi.
      assert (i = 0%nat) as ->
        by (apply occurs_at_length in Hi; simpl in Hi; lia).
      apply occurs_at_0 in Hi. congruence.
  - destruct (startswith (c :: s) sub) eqn:Hs.
    + right. exists 0%nat. split; [lia | by apply Hhit].
    + destruct (IH (pos + 1)) as [[-> Hno] | (i & -> & _ & Hocc & Hmin)].
      * left. split; [done|]. intros [|i] Hi.
        -- apply occurs_at_0 in Hi. congruence.
        -- apply occurs_at_cons in Hi. by eapply Hno.
      * right. exists (S i). split; [lia|]. split; [lia|].
        split; [by apply occurs_at_cons|].
        intros [|j] Hj Hoj.
        -- apply occurs_at_0 in Hoj. congruence.
        -- apply occurs_at_cons in Hoj. apply (Hmin j); [lia | done].
Qed.

(** What [find] returns, for a start index inside the string. *)
Lemma find_spec s sub (start : nat) :
  (start ≤ length s)%nat →
  (find s sub (Z.of_nat start) = -1
     ∧ ∀ i, (start ≤ i)%nat → ¬ occurs_at s sub i)
  ∨ ∃ e, find s sub (Z.of_nat start) = Z.of_nat e
         ∧ first_occurrence s sub start e.
Proof.
  intros Hstart. unfold find.
  destruct (Z.ltb_spec (Z.of_nat start) 0) as [?|_]; [lia|].
  destruct (Z.ltb_spec (Z.of_nat (length s)) (Z.of_nat start)) as [?|_]; [lia|].
  rewrite Nat2Z.id.
  destruct (find_at_spec (drop start s) sub (Z.of_nat start))
    as [[-> Hno] | (i & -> & _ & Hocc & Hmin)].
  - left. split; [done|]. intros i Hi Hocc.
    apply (Hno (i - start)%nat). apply occurs_at_drop; [done|].
    by replace (start + (i - start))%nat with i by lia.
  - right. exists (start + i)%nat. split; [lia|]. split; [lia|].
    split; [by apply occurs_at_drop|].
    intros j Hj Hoj. apply (Hmin (j - start)%nat); [lia|].
    apply occurs_at_drop; [done|].
    by replace (start + (j - start))%nat with j by lia.
Qed.

Lemma first_occurrence_unique s sub start e e' :
  first_occurrence s sub start e → first_occurrence s sub start e' → e = e'.
Proof.
  intros (H1 & H2 & H3) (H1' & H2' & H3').
  destruct (Nat.lt_trichotomy e e') as [?|[?|?]]; [|done|].
  - destruct (H3' e); [lia | done].
  - destruct (H3 e'); [lia | done].
Qed.

End string_facts.

(** ** Facts about [split], [contains] and the slices of the parser *)

Section split_facts.
Implicit Types (s k v : str) (c sep : N).

Lemma split_cons_head s sep m : ∃ piece rest, split s sep m = piece :: rest.
Proof.
  revert m. induction s as [|c s IH]; intros m; simpl; [eauto|].
  destruct (_ && _); [eauto|].
  destruct (IH m) as (piece & rest & ->). eauto.
Qed.

Lemma split_0 s sep : split s sep 0 = [s].
Proof.
  induction s as [|c s IH]; simpl; [done|].
  rewrite andb_false_r. by rewrite IH.
Qed.

Lemma split_no_sep s sep m : sep ∉ s → split s sep m = [s].
Proof.
  induction s as [|c s IH]; simpl; [done|].
  intros [Hne Hs]%not_elem_of_cons.
  destruct (N.eqb_spec c sep) as [->|_]; [done|]. simpl. by rewrite IH.
Qed.

Lemma split_first k v sep m :
  sep ∉ k → m ≠ 0 → split (k ++ sep :: v) sep m = k :: split v sep (m - 1).
Proof.
  intros Hk Hm. induction k as [|c k IH]; simpl.
  - rewrite N.eqb_refl. by destruct (Z.eqb_spec m 0).
  - apply not_elem_of_cons in Hk as [Hne Hk].
    destruct (N.eqb_spec c sep) as [->|_]; [done|]. simpl. by rewrite IH.
Qed.

Lemma split_join s sep m : m < 0 → join sep (split s sep m) = s.
Proof.
  revert m. induction s as [|c s IH]; intros m Hm; simpl; [done|].
  destruct (Z.eqb_spec m 0) as [?|_]; [lia|].
  destruct (N.eqb_spec c sep) as [->|_]; simpl.
  - destruct (split_cons_head s sep (m - 1)) as (piece & rest & Hsp).
    specialize (IH (m - 1)). rewrite Hsp in *.
    rewrite IH by lia. done.
  - destruct (split_cons_head s sep m) as (piece & rest & Hsp).
    specialize (IH m Hm). rewrite Hsp in *.
    destruct rest; simpl in *; by rewrite <- IH.
Qed.

Lemma split_pieces s sep m :
  m < 0 → Forall (λ piece, sep ∉ piece) (split s sep m).
Proof.
  revert m. induction s as [|c s IH]; intros m Hm; simpl.
  - repeat constructor. apply not_elem_of_nil.
  - destruct (Z.eqb_spec m 0) as [?|_]; [lia|].
    destruct (N.eqb_spec c sep) as [->|Hne]; simpl.
    + constructor; [apply not_elem_of_nil | apply IH; lia].
    + specialize (IH m Hm).
      destruct (split s sep m) as [|piece rest].
      * repeat constructor. by intros ->%list_elem_of_singleton.
      * inversion_clear IH. constructor; [|done].
        by apply not_elem_of_cons.
Qed.

Lemma occurs_at_singleton s c i : occurs_at s [c] i ↔ s !! i = Some c.
Proof.
  split.
  - intros (pre & post & -> & <-). by apply list_lookup_middle.
  - intros Hi. exists (take i s), (drop (S i) s). split.
    + by rewrite <- (take_drop_middle s i c) at 1.
    + rewrite length_take. apply lookup_lt_Some in Hi. lia.
Qed.

Lemma contains_char s c : contains s [c] = true ↔ c ∈ s.
Proof.
  unfold contains. rewrite negb_true_iff, Z.eqb_neq, list_elem_of_lookup.
  destruct (find_spec s [c] 0) as [[Hf Hno] | (e & Hf & _ & Hocc & _)];
    [simpl; lia | |]; change (Z.of_nat 0) with 0 in Hf; rewrite Hf.
  - split; [done|]. intros [i Hi]. destruct (Hno i); [lia|].
    by apply occurs_at_singleton.
  - split; [|lia]. intros _. exists e. by apply occurs_at_singleton.
Qed.

Lemma first_sep_unique k v k' v' sep :
  sep ∉ k → sep ∉ k' → k ++ sep :: v = k' ++ sep :: v' → k = k' ∧ v = v'.
Proof.
  revert k'. induction k as [|c k IH]; intros [|c' k'] Hk Hk'; simpl.
  - by intros [= ->].
  - intros [= <- _]. destruct Hk'. left.
  - intros [= -> _]. destruct Hk. left.
  - apply not_elem_of_cons in Hk as [_ Hk].
    apply not_elem_of_cons in Hk' as [_ Hk'].
    intros [= -> Heq]. by destruct (IH k' Hk Hk' Heq) as [-> ->].
Qed.

Lemma slice_mid s (lo hi : nat) :
  (lo ≤ length s)%nat → (hi ≤ length s)%nat →
  slice s (Z.of_nat lo) (Z.of_nat hi) = take (hi - lo) (drop lo s).
Proof.
  intros Hlo Hhi. unfold slice, clip.
  destruct (Z.ltb_spec (Z.of_nat lo) 0); [lia|].
  destruct (Z.ltb_spec (Z.of_nat hi) 0); [lia|].
  rewrite !Z.min_l by lia. rewrite Nat2Z.id. f_equal. lia.
Qed.

Lemma slice_from_mid s (lo : nat) :
  (lo ≤ length s)%nat → slice_from s (Z.of_nat lo) = drop lo s.
Proof.
  intros Hlo. unfold slice_from, clip.
  destruct (Z.ltb_spec (Z.of_nat lo) 0); [lia|].
  rewrite Z.min_l by lia. by rewrite Nat2Z.id.
Qed.

End split_facts.

(** ** The header mapping *)

Section header_facts.
Implicit Types (line k v key value : str) (lines : list str)
  (fm : gmap (list N) (list N)).

Lemma header_entry_fun line key value key' value' :
  header_entry line key value → header_entry line key' value' →
  key = key' ∧ value = value'.
Proof.
  intros (k & v & -> & Hk & -> & ->) (k' & v' & Heq & Hk' & -> & ->).
  by destruct (first_sep_unique _ _ _ _ _ Hk Hk' Heq) as [-> ->].
Qed.

Lemma header_entry_colon line key value :
  header_entry line key value → COLON ∈ line.
Proof. intros (k & v & -> & _). rewrite elem_of_app. right. left. Qed.

Lemma parse_line_spec fm line :
  ((COLON ∉ line) ∧ parse_line fm line = Ok fm)
  ∨ ∃ key value, header_entry line key value
                 ∧ parse_line fm line = Ok (<[key := value]> fm).
Proof.
  unfold parse_line. destruct (contains line [COLON]) eqn:Hc.
  - right. apply contains_char in Hc.
    apply list_elem_of_split_l in Hc as (k & v & -> & Hk).
    exists (strip k), (strip v). split; [by exists k, v|].
    rewrite split_first by done. by rewrite split_0.
  - left. split; [|done]. intros Hin%contains_char. congruence.
Qed.

Lemma for_in_snoc {A S : Type} (xs : list A) (x : A) (s : S)
    (body : S → A → result S) :
  for_in (xs ++ [x]) s body = s' ← for_in xs s body; body s' x.
Proof.
  revert s. induction xs as [|y xs IH]; intros s; simpl.
  - by destruct (body s x).
  - destruct (body s y) as [s'|e]; simpl; [apply IH | done].
Qed.

(** The loop over the header lines never raises, and a key is bound to the
    value of the last line that sets it. *)
Lemma parse_lines_spec lines :
  ∃ fm, for_in lines ∅ parse_line = Ok fm
        ∧ ∀ key value, fm !! key = Some value ↔ last_entry lines key value.
Proof.
  induction lines as [|line lines (fm & Hfm & IH)] using rev_ind.
  - exists ∅. split; [done|]. intros key value. rewrite lookup_empty.
    split; [done | by intros (i & l & ? & _)].
  - rewrite for_in_snoc, Hfm. simpl.
    assert (Hold : ∀ key value,
      (∀ value', ¬ header_entry line key value') →
      last_entry (lines ++ [line]) key value ↔ last_entry lines key value).
    { intros key value Hnone. split.
      - intros (i & l & Hi & He & Hlast).
        apply lookup_snoc_Some in Hi as [[Hlt Hi] | [_ ->]];
          [|by destruct (Hnone value)].
        exists i, l. split_and!; [done..|].
        intros j l' v' Hj Hl'. apply (Hlast j l' v' Hj).
        apply lookup_app_l_Some. done.
      - intros (i & l & Hi & He & Hlast). exists i, l.
        split_and!; [by apply lookup_app_l_Some | done |].
        intros j l' v' Hj Hl'.
        apply lookup_snoc_Some in Hl' as [[_ Hl'] | [_ ->]];
          [by eapply Hlast | apply Hnone]. }
    destruct (parse_line_spec fm line) as [[Hno ->] | (k & v & He & ->)].
    + exists fm. split; [done|]. intros key value.
      rewrite IH. symmetry. apply Hold.
      intros value' Hentry%header_entry_colon. done.
    + exists (<[k := v]> fm). split; [done|]. intros key value.
      destruct (decide (k = key)) as [->|Hne].
      * rewrite lookup_insert_eq. split.
        -- intros [= ->]. exists (length lines), line.
           split_and!; [by apply list_lookup_middle | done |].
           intros j l' v' Hj Hl'. apply lookup_lt_Some in Hl'.
           rewrite length_app in Hl'. simpl in Hl'. lia.
        -- intros (i & l & Hi & He' & Hlast).
           apply lookup_snoc_Some in Hi as [[Hlt Hi] | [_ ->]].
           ++ destruct (Hlast (length lines) line v Hlt); [|done].
              by apply list_lookup_middle.
           ++ by destruct (header_entry_fun _ _ _ _ _ He He') as [_ ->].
      * rewrite lookup_insert_ne by done. rewrite IH. symmetry. apply Hold.
        intros value' He'.
        by destruct (header_entry_fun _ _ _ _ _ He He') as [-> _].
Qed.

End header_facts.

(** ** parse_frontmatter: the three ways through the function *)

Section parser_facts.
Implicit Types (content body : str) (fm : gmap (list N) (list N)).

Lemma startswith_length s sub :
  startswith s sub = true → (length sub ≤ length s)%nat.
Proof. intros [post ->]%startswith_prefix. rewrite length_app. lia. Qed.

(** Either the opening delimiter is missing, or no terminator follows it, or
    the header ends at the first terminator found from offset 3. *)
Lemma parse_frontmatter_cases content :
  (startswith content DELIM = false
     ∧ parse_frontmatter content = Ok (∅, content))
  ∨ (startswith content DELIM = true
     ∧ (∀ i, (3 ≤ i)%nat → ¬ occurs_at content TERMINATOR i)
     ∧ parse_frontmatter content = Ok (∅, content))
  ∨ (startswith content DELIM = true
     ∧ ∃ e fm, first_occurrence content TERMINATOR 3 e
         ∧ parse_frontmatter content = Ok (fm, drop (e + 5) content)
         ∧ ∀ key value, fm !! key = Some value ↔
             last_entry (split (take (e - 4) (drop 4 content)) NL (-1))
               key value).
Proof.
  unfold parse_frontmatter.
  destruct (startswith content DELIM) eqn:Hs; [|by left].
  right. apply startswith_length in Hs as Hlen.
  change (length DELIM) with 3%nat in Hlen.
  destruct (find_spec content TERMINATOR 3 Hlen)
    as [[Hf Hno] | (e & Hf & Hfirst)];
    change (Z.of_nat 3) with 3 in Hf; cbv zeta; rewrite Hf.
  - left. by split_and!.
  - right. split; [done|]. exists e.
    destruct (Z.eqb_spec (Z.of_nat e) (-1)) as [?|_]; [lia|].
    pose proof Hfirst as (He & Hocc%occurs_at_length & _).
    change (length TERMINATOR) with 5%nat in Hocc.
    change 4 with (Z.of_nat 4). rewrite slice_mid by lia.
    replace (Z.of_nat e + 5) with (Z.of_nat (e + 5)) by lia.
    rewrite slice_from_mid by lia.
    destruct (parse_lines_spec
                (split (take (e - 4) (drop 4 content)) NL (-1)))
      as (fm & -> & Hfm).
    by exists fm.
Qed.

(** The parser raises on no input. *)
Lemma parse_frontmatter_total content :
  ∃ fm body, parse_frontmatter content = Ok (fm, body).
Proof.
  destruct (parse_frontmatter_cases content)
    as [[_ ->] | [(_ & _ & ->) | (_ & e & fm & _ & -> & _)]]; eauto.
Qed.

End parser_facts.

(** C1. When the content starts with the delimiter and the terminator occurs
    at some index from 3 on, the parser succeeds; with [e] the first such
    index, the header region is [content[4:e]], it is cut into lines at the
    newlines, and the mapping binds a key to a value exactly when the last
    line that has the key before its first colon has that value after it
    (both trimmed); the body is [content[e+5:]].  In particular
    ["---\ntitle: Foo\n---\nBody text"] gives [{"title": "Foo"}] and
    ["Body text"], and the line ["title: A: B"] gives key ["title"] and value
    ["A: B"]. *)
Theorem parse_frontmatter_header :
  (∀ content i,
     startswith content DELIM = true → (3 ≤ i)%nat →
     occurs_at content TERMINATOR i →
     ∃ e fm lines,
       first_occurrence content TERMINATOR 3 e
       ∧ parse_frontmatter content = Ok (fm, drop (e + 5) content)
       ∧ join NL lines = take (e - 4) (drop 4 content)
       ∧ Forall (λ line, NL ∉ line) lines
       ∧ ∀ key value, fm !! key = Some value ↔ last_entry lines key value)
  ∧ parse_frontmatter content_foo
    = Ok ({[ lit "title" := lit "Foo" ]}, lit "Body text")
  ∧ header_entry (lit "title: A: B") (lit "title") (lit "A: B")
  ∧ ∀ fm, parse_line fm (lit "title: A: B")
          = Ok (<[ lit "title" := lit "A: B" ]> fm).
Proof.
  split_and!.
  - intros content i Hs Hi Hocc.
    destruct (parse_frontmatter_cases content)
      as [[Hs' _] | [(_ & Hno & _) | (_ & e & fm & Hfirst & Hp & Hfm)]].
    + congruence.
    + by destruct (Hno i).
    + exists e, fm, (split (take (e - 4) (drop 4 content)) NL (-1)).
      split_and!; [done | done | | | done].
      * by apply split_join.
      * by apply split_pieces.
  - by vm_compute.
  - exists (lit "title"), (lit " A: B"). split_and!; [done | | done | done].
    apply (bool_decide_unpack _). by vm_compute.
  - done.
Qed.

Lemma parse_frontmatter_header_witness :
  ∃ e fm lines,
    first_occurrence content_foo TERMINATOR 3 e
    ∧ parse_frontmatter content_foo = Ok (fm, drop (e + 5) content_foo)
    ∧ join NL lines = take (e - 4) (drop 4 content_foo)
    ∧ Forall (λ line, NL ∉ line) lines
    ∧ ∀ key value, fm !! key = Some value ↔ last_entry lines key value.
Proof.
  apply (proj1 parse_frontmatter_header content_foo 14%nat).
  - reflexivity.
  - lia.
  - exists (take 14 content_foo), (drop 19 content_foo).
    split; reflexivity.
Defined.

(** C2. Content that does not start with the delimiter, or that starts with
    it but has no terminator at any index from 3 on, parses to the empty
    mapping and the content itself as body; and the parser raises on no
    input at all. *)
Theorem parse_frontmatter_no_header :
  (∀ content,
     startswith content DELIM = false
     ∨ (startswith content DELIM = true
        ∧ ∀ i, (3 ≤ i)%nat → ¬ occurs_at content TERMINATOR i) →
     parse_frontmatter content = Ok (∅, content))
  ∧ ∀ content, ∃ fm body, parse_frontmatter content = Ok (fm, body).
Proof.
  split; [|apply parse_frontmatter_total].
  intros content Hc.
  destruct (parse_frontmatter_cases content)
    as [[_ Hp] | [(_ & _ & Hp) | (Hs & e & fm & Hfirst & _)]]; [done..|].
  destruct Hc as [Hs' | [_ Hno]]; [congruence|].
  destruct Hfirst as (He & Hocc & _). by destruct (Hno e).
Qed.

Lemma parse_frontmatter_no_header_witness :
  parse_frontmatter (lit "# Title") = Ok (∅, lit "# Title").
Proof.
  apply (proj1 parse_frontmatter_no_header (lit "# Title")).
  left. reflexivity.
Defined.

(** C9. The body the parser returns is a suffix of its input: the whole
    input, or the input from 5 characters past the index where the
    terminator was found. *)
Theorem parse_frontmatter_body_suffix content :
  ∃ fm body,
    parse_frontmatter content = Ok (fm, body)
    ∧ (body = content
       ∨ ∃ e, first_occurrence content TERMINATOR 3 e
              ∧ body = drop (e + 5) content)
    ∧ body `suffix_of` content.
Proof.
  destruct (parse_frontmatter_cases content)
    as [[_ ->] | [(_ & _ & ->) | (_ & e & fm & Hfirst & -> & _)]].
  - exists ∅, content. by split_and!; [|left|].
  - exists ∅, content. by split_and!; [|left|].
  - exists fm, (drop (e + 5) content). split_and!; [done | |].
    + right. by exists e.
    + apply suffix_drop.
Qed.

(** ** scan_pages *)

Section scan_facts.
Implicit Types (root : node) (pages : list Page) (fs : option node).

Lemma outcome_bind {A B} (m : IO A) (f : A → IO B) fs :
  outcome (m ≫= f) fs =
    match outcome m fs with
    | Ok a => outcome (f a) fs
    | Raise e => Raise e
    end.
Proof.
  unfold outcome, mbind, io_bind.
  destruct (m fs) as [t [a|e]]; simpl; [by destruct (f a fs) | done].
Qed.



Lemma lookup_entry_elem name entries x :
  (name, x) ∈ entries → is_Some (lookup_entry name entries).
Proof.
  induction entries as [|[n y] entries IH]; simpl.
  - by intros ?%not_elem_of_nil.
  - intros Hin. case_decide; [eauto|].
    apply elem_of_cons in Hin as [[= ]|Hin]; [congruence | auto].
Qed.








End scan_facts.




(** ** The checks *)

Section check_facts.
Implicit Types (pages : list Page) (errors : list (list N)).

Lemma truthy_true {A} (l : list A) : truthy l = true ↔ l ≠ [].
Proof. by destruct l. Qed.

Lemma truthy_filter {A} (P : A → Prop) `{∀ x, Decision (P x)} (l : list A) :
  truthy (filter P l) = true ↔ ∃ x, x ∈ l ∧ P x.
Proof.
  rewrite truthy_true. split.
  - intros Hne. destruct (filter P l) as [|x l'] eqn:Hf; [done|].
    assert (x ∈ filter P l) as [? ?]%list_elem_of_filter
      by (rewrite Hf; left).
    eauto.
  - intros (x & Hx & HP) Hf.
    assert (x ∈ filter P l) as Hin by by apply list_elem_of_filter.
    rewrite Hf in Hin. by apply not_elem_of_nil in Hin.
Qed.

Lemma contains_occurs s sub :
  contains s sub = true ↔ ∃ i, occurs_at s sub i.
Proof.
  unfold contains. rewrite negb_true_iff, Z.eqb_neq.
  destruct (find_spec s sub 0) as [[Hf Hno] | (e & Hf & _ & Hocc & _)];
    [simpl; lia | |]; change (Z.of_nat 0) with 0 in Hf; rewrite Hf.
  - split; [done|]. intros [i Hi]. destruct (Hno i); [lia | done].
  - split; [eauto | lia].
Qed.

Lemma append_if_app cond errors msg :
  append_if cond errors msg = errors ++ append_if cond [] msg.
Proof. destruct cond; simpl; [done | by rewrite app_nil_r]. Qed.

Lemma reports_has_title title pages msg :
  reports (has_title title pages) msg
    (append_if (negb (truthy (filter (λ p, item1 p = title) pages))) [] msg).
Proof.
  unfold reports, has_title.
  destruct (truthy _) eqn:Ht; simpl; [left | right]; split; try done.
  - by apply truthy_filter in Ht.
  - intros Hex. apply (truthy_filter (λ p, item1 p = title)) in Hex.
    congruence.
Qed.

Lemma reports_no_title title pages (msg : nat → list N) :
  reports (no_title title pages) (msg (count_title title pages))
    (append_if (truthy (filter (λ p, item1 p = title) pages)) []
       (msg (length (filter (λ p, item1 p = title) pages)))).
Proof.
  unfold reports, no_title.
  destruct (truthy _) eqn:Ht; simpl; [right | left]; split; try done.
  - apply truthy_filter in Ht as (p & Hp & Htitle). intros Hno.
    by destruct (Hno p Hp).
  - intros p Hp Htitle.
    assert (truthy (filter (λ p, item1 p = title) pages) = true);
      [apply truthy_filter; eauto | congruence].
Qed.

Lemma reports_has_body_with sub pages msg :
  reports (has_body_with sub pages) msg
    (append_if
       (negb (truthy (filter (λ p, contains (item2 p) sub = true) pages)))
       [] msg).
Proof.
  unfold reports, has_body_with.
  destruct (truthy _) eqn:Ht; simpl; [left | right]; split; try done.
  - apply truthy_filter in Ht as (p & Hp & [i Hi]%contains_occurs). eauto.
  - intros (p & i & Hp & Hi).
    assert (truthy (filter (λ p, contains (item2 p) sub = true) pages)
            = true); [|congruence].
    apply truthy_filter. exists p. split; [done|].
    apply contains_occurs. eauto.
Qed.

(** The error list is the six contributions, in the order of the checks. *)
Lemma checks_reports pages :
  ∃ e1 e2 e3 e4 e5 e6,
    checks pages = e1 ++ e2 ++ e3 ++ e4 ++ e5 ++ e6
    ∧ reports (pred1 pages) msg1 e1
    ∧ reports (pred2 pages)
        (msg2 (count_title (lit "Page To Rename") pages)) e2
    ∧ reports (pred3 pages) msg3 e3
    ∧ reports (pred4 pages) msg4 e4
    ∧ reports (pred5 pages) msg5 e5
    ∧ reports (pred6 pages) msg6 e6.
Proof.
  eexists _, _, _, _, _, _. split_and!; cycle 1.
  - apply reports_has_title.
  - apply (reports_no_title _ _ msg2).
  - apply reports_has_title.
  - apply reports_has_body_with.
  - apply reports_has_title.
  - apply reports_has_title.
  - unfold checks. cbv zeta.
    rewrite (append_if_app _ (append_if _ _ _)).
    repeat (rewrite (append_if_app _ (append_if _ _ _)), <- app_assoc).
    reflexivity.
Qed.

Lemma checks_nil_all_pass pages : checks pages = [] ↔ all_pass pages.
Proof.
  destruct (checks_reports pages)
    as (e1 & e2 & e3 & e4 & e5 & e6 & -> & H1 & H2 & H3 & H4 & H5 & H6).
  unfold all_pass, reports in *. split.
  - intros Hnil. repeat (apply app_eq_nil in Hnil as [? Hnil]). subst.
    destruct H1 as [[? _]|[_ [=]]], H2 as [[? _]|[_ [=]]],
      H3 as [[? _]|[_ [=]]], H4 as [[? _]|[_ [=]]],
      H5 as [[? _]|[_ [=]]], H6 as [[? _]|[_ [=]]].
    done.
  - intros (? & ? & ? & ? & ? & ?).
    destruct H1 as [[_ ->]|[? _]]; [|done].
    destruct H2 as [[_ ->]|[? _]]; [|done].
    destruct H3 as [[_ ->]|[? _]]; [|done].
    destruct H4 as [[_ ->]|[? _]]; [|done].
    destruct H5 as [[_ ->]|[? _]]; [|done].
    destruct H6 as [[_ ->]|[? _]]; [|done]. done.
Qed.

End check_facts.

(** ** Logs *)

Section log_facts.
Implicit Types (pages : list Page) (fs : option node) (t : list event).

Lemma io_bind_eq {A B} (m : IO A) (f : A → IO B) fs :
  (m ≫= f) fs =
    match m fs with
    | (t, Ok a) => let '(t', r) := f a fs in (t ++ t', r)
    | (t, Raise e) => (t, Raise e)
    end.
Proof. done. Qed.

Lemma stdout_app t t' : stdout (t ++ t') = stdout t ++ stdout t'.
Proof. apply bind_app. Qed.

Lemma silent_bind {A B} (m : IO A) (f : A → IO B) :
  silent m → (∀ a, silent (f a)) → silent (m ≫= f).
Proof.
  intros Hm Hf fs. specialize (Hm fs). unfold mbind, io_bind.
  destruct (m fs) as [t [a|e]]; simpl in *; [|done].
  specialize (Hf a fs). destruct (f a fs) as [t' r]; simpl in *.
  by rewrite stdout_app, Hm, Hf.
Qed.

Lemma silent_ret {A} (a : A) : silent (mret a).
Proof. done. Qed.

Lemma silent_for_in {A S} (xs : list A) (s : S) (body : S → A → IO S) :
  (∀ s x, silent (body s x)) → silent (for_in xs s body).
Proof.
  intros Hbody. revert s. induction xs as [|x xs IH]; intros s; simpl.
  - apply silent_ret.
  - apply silent_bind; [apply Hbody | apply IH].
Qed.

Lemma silent_scan_node pages node_dir : silent (scan_node pages node_dir).
Proof.
  unfold scan_node. apply silent_bind; [done|]. intros d.
  destruct (_ || _); [done|]. apply silent_bind; [done|]. intros [|]; [|done].
  apply silent_bind; [done|]. intros text.
  apply silent_bind; [done|]. by intros [fm body].
Qed.

Lemma silent_scan_workspace pages ws_dir :
  silent (scan_workspace pages ws_dir).
Proof.
  unfold scan_workspace. apply silent_bind; [done|]. intros d.
  destruct (_ || _); [done|]. apply silent_bind; [done|]. intros node_dirs.
  apply silent_for_in. apply silent_scan_node.
Qed.

Lemma silent_scan_pages : silent scan_pages.
Proof.
  unfold scan_pages. apply silent_bind; [done|]. intros ws_dirs.
  apply silent_for_in. apply silent_scan_workspace.
Qed.

Lemma print_errors (errors : list (list N)) fs :
  for_in errors () (λ _ e, print (lit "ERROR: " ++ e)) fs
  = ((λ e, Printed (error_line e)) <$> errors, Ok ()).
Proof.
  induction errors as [|e errors IH]; [done|].
  cbn [for_in]. rewrite io_bind_eq. unfold print at 1. cbv beta iota.
  by rewrite IH.
Qed.

(** The log and the return value of lines 51-89, for at least one page. *)
Lemma verify_run pages fs :
  pages ≠ [] →
  verify pages fs
  = (Printed (summary_line (length pages))
       :: ((λ e, Printed (error_line e)) <$> checks pages)
       ++ (if truthy (checks pages) then [] else [Printed success_line]),
     Ok (if truthy (checks pages) then 1 else 0)).
Proof.
  intros Hne. unfold verify.
  destruct pages as [|p pages]; [done|]. cbn [truthy negb].
  cbv zeta. rewrite io_bind_eq. unfold print at 1. cbv beta iota.
  destruct (checks (p :: pages)) as [|e errors]; [done|]. cbn [truthy].
  rewrite io_bind_eq, print_errors. simpl. by rewrite app_nil_r.
Qed.

Lemma main_run root :
  main (Some root) =
    match scan_pages (Some root) with
    | (t, Ok pages) =>
        let '(t', r) := verify pages (Some root) in
        (Exists DATA_DIR :: t ++ t', r)
    | (t, Raise e) => (Exists DATA_DIR :: t, Raise e)
    end.
Proof.
  unfold main. rewrite io_bind_eq. cbn [exists_ at_path mbind option_bind
    resolve DATA_DIR negb].
  rewrite io_bind_eq.
  destruct (scan_pages (Some root)) as [t [pages|e]]; [|done].
  by destruct (verify pages (Some root)).
Qed.

Lemma truthy_Permutation {A} (l l' : list A) :
  l ≡ₚ l' → truthy l = truthy l'.
Proof.
  intros Hl%Permutation_length. by destruct l, l'.
Qed.

Lemma checks_Permutation pages pages' :
  pages ≡ₚ pages' → checks pages = checks pages'.
Proof.
  intros Hp. unfold checks. cbv zeta.
  by rewrite !(truthy_Permutation _ _ (filter_Permutation _ _ _ Hp)),
    (Permutation_length (filter_Permutation _ _ _ Hp)).
Qed.

End log_facts.

(** ** The verification pass and the run *)

(** C5. For at least one page, all six checks are made, whatever the
    earlier ones gave: the error list is the concatenation of six
    contributions, each empty when its predicate holds and its one message
    when it fails; the errors are printed together after the summary line;
    and the pass returns 0 exactly when all six predicates hold. *)
Theorem verify_accumulates pages fs :
  pages ≠ [] →
  ∃ e1 e2 e3 e4 e5 e6 status,
    checks pages = e1 ++ e2 ++ e3 ++ e4 ++ e5 ++ e6
    ∧ reports (pred1 pages) msg1 e1
    ∧ reports (pred2 pages)
        (msg2 (count_title (lit "Page To Rename") pages)) e2
    ∧ reports (pred3 pages) msg3 e3
    ∧ reports (pred4 pages) msg4 e4
    ∧ reports (pred5 pages) msg5 e5
    ∧ reports (pred6 pages) msg6 e6
    ∧ verify pages fs
      = (Printed (summary_line (length pages))
           :: ((λ e, Printed (error_line e)) <$> checks pages)
           ++ (if truthy (checks pages) then [] else [Printed success_line]),
         Ok status)
    ∧ (status = 0 ↔ all_pass pages)
    ∧ (status = 1 ↔ ¬ all_pass pages).
Proof.
  intros Hne.
  destruct (checks_reports pages)
    as (e1 & e2 & e3 & e4 & e5 & e6 & Heq & H1 & H2 & H3 & H4 & H5 & H6).
  exists e1, e2, e3, e4, e5, e6,
    (if truthy (checks pages) then 1 else 0).
  split_and!; try done; [by apply verify_run | |];
    rewrite <- checks_nil_all_pass; by destruct (checks pages).
Qed.

Lemma verify_accumulates_witness :
  ∃ e1 e2 e3 e4 e5 e6 status,
    checks [page_n1; page_n2] = e1 ++ e2 ++ e3 ++ e4 ++ e5 ++ e6
    ∧ reports (pred1 [page_n1; page_n2]) msg1 e1
    ∧ reports (pred2 [page_n1; page_n2])
        (msg2 (count_title (lit "Page To Rename") [page_n1; page_n2])) e2
    ∧ reports (pred3 [page_n1; page_n2]) msg3 e3
    ∧ reports (pred4 [page_n1; page_n2]) msg4 e4
    ∧ reports (pred5 [page_n1; page_n2]) msg5 e5
    ∧ reports (pred6 [page_n1; page_n2]) msg6 e6
    ∧ verify [page_n1; page_n2] None
      = (Printed (summary_line (length [page_n1; page_n2]))
           :: ((λ e, Printed (error_line e)) <$> checks [page_n1; page_n2])
           ++ (if truthy (checks [page_n1; page_n2]) then []
               else [Printed success_line]),
         Ok status)
    ∧ (status = 0 ↔ all_pass [page_n1; page_n2])
    ∧ (status = 1 ↔ ¬ all_pass [page_n1; page_n2]).
Proof. apply (verify_accumulates [page_n1; page_n2] None). discriminate. Defined.

(** C10. Permuting the pages changes nothing in the verification pass: each
    of the six predicates keeps its truth value, the count in the second
    message and the list of errors (so also their multiset) are the same,
    and the pass prints and returns the same. *)
Theorem verify_Permutation pages pages' :
  pages ≡ₚ pages' →
  (pred1 pages ↔ pred1 pages') ∧ (pred2 pages ↔ pred2 pages')
  ∧ (pred3 pages ↔ pred3 pages') ∧ (pred4 pages ↔ pred4 pages')
  ∧ (pred5 pages ↔ pred5 pages') ∧ (pred6 pages ↔ pred6 pages')
  ∧ count_title (lit "Page To Rename") pages
    = count_title (lit "Page To Rename") pages'
  ∧ checks pages = checks pages'
  ∧ ∀ fs, verify pages fs = verify pages' fs.
Proof.
  intros Hp.
  assert (Htitle : ∀ title, has_title title pages ↔ has_title title pages').
  { intros title. unfold has_title. by setoid_rewrite Hp. }
  split_and!; try apply Htitle.
  - unfold pred2, no_title. by setoid_rewrite Hp.
  - unfold pred4, has_body_with. by setoid_rewrite Hp.
  - unfold count_title. by rewrite Hp.
  - by apply checks_Permutation.
  - intros fs. unfold verify.
    by rewrite (truthy_Permutation _ _ Hp), (checks_Permutation _ _ Hp),
      (Permutation_length Hp).
Qed.

Lemma verify_Permutation_witness :
  (pred1 [page_n1; page_n2] ↔ pred1 [page_n2; page_n1])
  ∧ (pred2 [page_n1; page_n2] ↔ pred2 [page_n2; page_n1])
  ∧ (pred3 [page_n1; page_n2] ↔ pred3 [page_n2; page_n1])
  ∧ (pred4 [page_n1; page_n2] ↔ pred4 [page_n2; page_n1])
  ∧ (pred5 [page_n1; page_n2] ↔ pred5 [page_n2; page_n1])
  ∧ (pred6 [page_n1; page_n2] ↔ pred6 [page_n2; page_n1])
  ∧ count_title (lit "Page To Rename") [page_n1; page_n2]
    = count_title (lit "Page To Rename") [page_n2; page_n1]
  ∧ checks [page_n1; page_n2] = checks [page_n2; page_n1]
  ∧ ∀ fs, verify [page_n1; page_n2] fs = verify [page_n2; page_n1] fs.
Proof.
  apply (verify_Permutation [page_n1; page_n2] [page_n2; page_n1]).
  apply perm_swap.
Defined.

(** C6. Without a root directory the run prints the missing-root error and
    ends with status 1 having made one call, the existence test: nothing is
    listed or read.  With a root whose scan returns no page, the run prints
    only the no-pages error after the (silent) scan and ends with status 1:
    neither the summary nor any of the five errors that the checks give on
    an empty list is printed. *)
Theorem fatal_conditions :
  script None = ([Exists DATA_DIR; Printed missing_root_line], 1)
  ∧ (∀ root,
       outcome scan_pages (Some root) = Ok [] →
       ∃ t, scan_pages (Some root) = (t, Ok [])
            ∧ stdout t = []
            ∧ script (Some root)
              = (Exists DATA_DIR :: t ++ [Printed no_pages_line], 1)
            ∧ stdout (script (Some root)).1 = [no_pages_line])
  ∧ checks [] = [msg1; msg3; msg4; msg5; msg6].
Proof.
  split_and!; [done | | done].
  intros root Hscan. pose proof (silent_scan_pages (Some root)) as Hsilent.
  unfold outcome in Hscan. unfold script. rewrite main_run.
  destruct (scan_pages (Some root)) as [t r]. simpl in Hscan, Hsilent.
  subst r. exists t. split_and!; [done..|].
  change (stdout (t ++ [Printed no_pages_line]) = [no_pages_line]).
  by rewrite stdout_app, Hsilent.
Qed.

Lemma fatal_conditions_witness :
  ∃ t, scan_pages (Some (Dir [])) = (t, Ok [])
       ∧ stdout t = []
       ∧ script (Some (Dir []))
         = (Exists DATA_DIR :: t ++ [Printed no_pages_line], 1)
       ∧ stdout (script (Some (Dir []))).1 = [no_pages_line].
Proof. apply (proj1 (proj2 fatal_conditions) (Dir [])). reflexivity. Defined.

Lemma stdout_prints (lines : list (list N)) : stdout (Printed <$> lines) = lines.
Proof.
  induction lines as [|l lines IH]; [done|].
  change (l :: stdout (Printed <$> lines) = l :: lines). by rewrite IH.
Qed.

Lemma scanned_fun fs pages pages' :
  scanned fs pages → scanned fs pages' → pages = pages'.
Proof. intros [_ H] [_ H']. congruence. Qed.

Lemma scanned_not_raises fs pages : scanned fs pages → ¬ scan_raises fs.
Proof. intros [_ H] [_ [e H']]. congruence. Qed.

(** The four ways a run can go, with its exit status and what it prints. *)
Lemma script_cases fs :
  (fs = None ∧ (script fs).2 = 1
     ∧ stdout (script fs).1 = [missing_root_line])
  ∨ (scan_raises fs ∧ (script fs).2 = 1 ∧ stdout (script fs).1 = [])
  ∨ (scanned fs [] ∧ (script fs).2 = 1
     ∧ stdout (script fs).1 = [no_pages_line])
  ∨ (∃ pages, scanned fs pages ∧ pages ≠ []
       ∧ (script fs).2 = (if truthy (checks pages) then 1 else 0)
       ∧ stdout (script fs).1
         = summary_line (length pages) :: (error_line <$> checks pages)
             ++ (if truthy (checks pages) then [] else [success_line])).
Proof.
  destruct fs as [root|]; [|by left].
  right. pose proof (silent_scan_pages (Some root)) as Hsilent.
  unfold scanned, scan_raises, outcome, script. rewrite main_run.
  destruct (scan_pages (Some root)) as [t [pages|e]]; simpl in Hsilent.
  - right. destruct pages as [|p pages].
    + left. split_and!; [done.. |].
      change (stdout (t ++ [Printed no_pages_line]) = [no_pages_line]).
      by rewrite stdout_app, Hsilent.
    + right. exists (p :: pages). rewrite verify_run by done.
      split_and!; [done.. |]. cbn [fst].
      change (stdout (t ++ Printed (summary_line (length (p :: pages)))
                :: ((λ e, Printed (error_line e)) <$> checks (p :: pages))
                ++ (if truthy (checks (p :: pages)) then []
                    else [Printed success_line]))
              = summary_line (length (p :: pages))
                  :: (error_line <$> checks (p :: pages))
                  ++ (if truthy (checks (p :: pages)) then []
                      else [success_line])).
      rewrite stdout_app, Hsilent, (list_fmap_compose error_line Printed).
      change (Printed (summary_line (length (p :: pages)))
                :: (Printed <$> (error_line <$> checks (p :: pages))) ++ ?l)
        with ([Printed (summary_line (length (p :: pages)))]
                ++ (Printed <$> (error_line <$> checks (p :: pages))) ++ l).
      rewrite !stdout_app, stdout_prints. by destruct (truthy _).
  - left. split_and!; [done | by exists e | done |].
    change (stdout (t ++ [Traceback e]) = []).
    by rewrite stdout_app, Hsilent.
Qed.

(** C4, as the code has it. The exit status is non-zero exactly when the
    root directory is absent, or an exception ends the scan, or the scan
    finds no page, or one of the six predicates fails on the scanned pages;
    it is zero exactly when the scan returns at least one page and all six
    predicates hold. *)
Theorem exit_status fs :
  ((script fs).2 ≠ 0 ↔
     fs = None ∨ scan_raises fs ∨ scanned fs []
     ∨ ∃ pages, scanned fs pages ∧ ¬ all_pass pages)
  ∧ ((script fs).2 = 0 ↔
       ∃ pages, scanned fs pages ∧ pages ≠ [] ∧ all_pass pages).
Proof.
  destruct (script_cases fs)
    as [(-> & -> & _) | [(Hr & -> & _) | [(Hs & -> & _)
        | (pages & Hs & Hne & -> & _)]]].
  - split; split; [auto | done | done |].
    by intros (pages & [[root [=]] _] & _).
  - split; split; [auto | done | done |].
    intros (pages & Hs & _). by destruct (scanned_not_raises _ _ Hs).
  - split; split; [auto | done | done |].
    intros (pages & Hs' & Hne & _). by destruct (scanned_fun _ _ _ Hs Hs').
  - pose proof (checks_nil_all_pass pages) as Hall.
    destruct (checks pages) as [|e errors] eqn:Hc; cbn [truthy].
    + split; split.
      * by intros [].
      * intros [-> | [Hr | [Hs' | (pages' & Hs' & Hfail)]]].
        -- by destruct Hs as [[root [=]] _].
        -- by destruct (scanned_not_raises _ _ Hs).
        -- by destruct (scanned_fun _ _ _ Hs Hs').
        -- destruct (scanned_fun _ _ _ Hs Hs'). destruct Hfail. by apply Hall.
      * intros _. exists pages. split_and!; [done | done | by apply Hall].
      * done.
    + split; split.
      * intros _. do 3 right. exists pages. split; [done|].
        by intros Hpass%Hall.
      * done.
      * done.
      * intros (pages' & Hs' & _ & Hpass).
        destruct (scanned_fun _ _ _ Hs Hs'). by apply Hall in Hpass.
Qed.

(** In the tree with the directory [index.md], the files [index.md] of the
    tree are pages on which all six predicates hold. *)
Lemma index_dir_tree_all_pass pages :
  pages_of_tree (Dir entries_index_dir) pages → pages ≠ [] ∧ all_pass pages.
Proof.
  intros Hpages.
  assert (Hin : ∀ nd text title body,
    resolve (Dir entries_index_dir) [lit "w1"; nd; lit "index.md"]
      = Some (File text) →
    startswith nd (lit ".") = false →
    parse_frontmatter text = Ok ({[ lit "title" := title ]}, body) →
    ([lit "w1"; nd; lit "index.md"], title, strip body) ∈ pages).
  { intros nd text title body Hres Hdot Hparse. apply Hpages.
    exists (lit "w1"), nd, text. split_and!; [| | done |].
    - split; [by eexists | done].
    - split; [|done]. simpl in *.
      repeat (case_decide; simplify_eq/=; eauto).
    - exists {[ lit "title" := title ]}, body. split; [done|].
      by rewrite lookup_singleton_eq. }
  pose proof (Hin (lit "n1") text_renamed (lit "RENAMED PAGE TITLE")
                (lit "hello") eq_refl eq_refl eq_refl) as H1.
  pose proof (Hin (lit "n2") text_final (lit "FINAL RENAME")
                (lit "MODIFIED CONTENT here") eq_refl eq_refl eq_refl) as H2.
  pose proof (Hin (lit "n3") text_new (lit "NEW TITLE")
                (lit "y") eq_refl eq_refl eq_refl) as H3.
  pose proof (Hin (lit "n4") text_updated (lit "Updated Title")
                (lit "z") eq_refl eq_refl eq_refl) as H4.
  split; [by intros -> ; apply not_elem_of_nil in H1|].
  split_and!.
  - eexists. split; [exact H1 | done].
  - intros p (ws & nd & text & _ & _ & Hres & fm & body & Hparse & ->)%Hpages.
    simpl in Hres.
    repeat (case_decide; simplify_eq/=); vm_compute in Hparse;
      injection Hparse as <- <-; by vm_compute.
  - eexists. split; [exact H2 | done].
  - eexists _, 0%nat. split; [exact H2|].
    exists [], (lit " here"). done.
  - eexists. split; [exact H3 | done].
  - eexists. split; [exact H4 | done].
Qed.

(** C4 fails as stated: with a directory called [index.md] in one node the
    run ends with status 1, although the root exists, the scan did not
    return an empty list, no predicate failed on scanned pages, and the
    pages of the tree satisfy all six predicates. *)
Lemma exit_status_index_dir :
  (script (Some (Dir entries_index_dir))).2 = 1
  ∧ ¬ (Some (Dir entries_index_dir) = None
       ∨ scanned (Some (Dir entries_index_dir)) []
       ∨ ∃ pages, scanned (Some (Dir entries_index_dir)) pages
                  ∧ ¬ all_pass pages)
  ∧ ∀ pages, pages_of_tree (Dir entries_index_dir) pages →
             pages ≠ [] ∧ all_pass pages.
Proof.
  assert (outcome scan_pages (Some (Dir entries_index_dir))
          = Raise (IsADirectoryError [lit "w1"; lit "n5"; lit "index.md"]))
    as Hraise by (by vm_compute).
  split_and!; [by vm_compute | | apply index_dir_tree_all_pass].
  intros [[=] | [[_ Hs] | (pages & [_ Hs] & _)]]; congruence.
Qed.

(** C7, as the code has it. A run that scans at least one page prints the
    summary line with the page count, then one error line for each entry of
    the error list, then the success line exactly when all six predicates
    hold.  The other runs print no summary: the missing-root error alone,
    the no-pages error alone, or nothing when an exception ends the scan. *)
Theorem stdout_of_run fs :
  (fs = None → stdout (script fs).1 = [missing_root_line])
  ∧ (scan_raises fs → stdout (script fs).1 = [])
  ∧ (scanned fs [] → stdout (script fs).1 = [no_pages_line])
  ∧ (∀ pages, scanned fs pages → pages ≠ [] →
       ∃ final,
         stdout (script fs).1
         = summary_line (length pages) :: (error_line <$> checks pages)
             ++ final
         ∧ ((all_pass pages ∧ checks pages = [] ∧ final = [success_line])
            ∨ (¬ all_pass pages ∧ checks pages ≠ [] ∧ final = []))).
Proof.
  destruct (script_cases fs)
    as [(-> & _ & Hout) | [(Hr & _ & Hout) | [(Hs & _ & Hout)
        | (pages & Hs & Hne & _ & Hout)]]].
  - split_and!; [done | | |].
    + by intros [[root [=]] _].
    + by intros [[root [=]] _].
    + by intros pages [[root [=]] _].
  - split_and!; [| done | |].
    + intros ->. by destruct Hr as [[root [=]] _].
    + intros Hs. by destruct (scanned_not_raises _ _ Hs).
    + intros pages Hs. by destruct (scanned_not_raises _ _ Hs).
  - split_and!; [| | done |].
    + intros ->. by destruct Hs as [[root [=]] _].
    + intros Hr. by destruct (scanned_not_raises _ _ Hs).
    + intros pages Hs' Hne. by destruct (scanned_fun _ _ _ Hs Hs').
  - split_and!.
    + intros ->. by destruct Hs as [[root [=]] _].
    + intros Hr. by destruct (scanned_not_raises _ _ Hs).
    + intros Hs'. by destruct (scanned_fun _ _ _ Hs Hs').
    + intros pages' Hs' _. destruct (scanned_fun _ _ _ Hs Hs').
      eexists. split; [exact Hout|].
      pose proof (checks_nil_all_pass pages) as Hall.
      destruct (checks pages) as [|e errors]; cbn [truthy].
      * left. split_and!; [by apply Hall | done..].
      * right. split_and!; [|done..]. by intros ?%Hall.
Qed.

Lemma stdout_of_run_witness :
  ∃ final,
    stdout (script (Some (Dir entries_w1))).1
    = summary_line (length [page_n1; page_n2])
        :: (error_line <$> checks [page_n1; page_n2]) ++ final
    ∧ ((all_pass [page_n1; page_n2] ∧ checks [page_n1; page_n2] = []
        ∧ final = [success_line])
       ∨ (¬ all_pass [page_n1; page_n2] ∧ checks [page_n1; page_n2] ≠ []
          ∧ final = [])).
Proof.
  apply (stdout_of_run (Some (Dir entries_w1))).
  - split; [by eexists | by vm_compute].
  - discriminate.
Defined.

(** C7 fails as stated: without a root directory the run prints one error
    line and no summary line, whatever the count. *)
Lemma stdout_missing_root :
  stdout (script None).1 = [missing_root_line]
  ∧ ∀ count, summary_line count ∉ stdout (script None).1.
Proof.
  split; [done|]. intros count Hin.
  change (stdout (script None).1) with [missing_root_line] in Hin.
  apply list_elem_of_singleton in Hin. vm_compute in Hin. discriminate.
Qed.

(** C8. For workspace [w1] with the nodes [n1] and [n2] the run reports the
    failure of predicate 2 with the count 1 of stale titles in the message,
    and reports no failure of predicate 1. *)
Theorem two_nodes_report :
  outcome scan_pages (Some (Dir entries_w1)) = Ok [page_n1; page_n2]
  ∧ pred1 [page_n1; page_n2]
  ∧ ¬ pred2 [page_n1; page_n2]
  ∧ count_title (lit "Page To Rename") [page_n1; page_n2] = 1%nat
  ∧ msg2 1 = lit "Found 1 'Page To Rename' pages - rename was lost"
  ∧ stdout (script (Some (Dir entries_w1))).1
    = [summary_line 2; error_line (msg2 1); error_line msg3;
       error_line msg4; error_line msg5; error_line msg6]
  ∧ error_line (msg2 1) ∈ stdout (script (Some (Dir entries_w1))).1
  ∧ (error_line msg1 ∉ stdout (script (Some (Dir entries_w1))).1)
  ∧ (script (Some (Dir entries_w1))).2 = 1.
Proof.
  assert (stdout (script (Some (Dir entries_w1))).1
          = [summary_line 2; error_line (msg2 1); error_line msg3;
             error_line msg4; error_line msg5; error_line msg6]) as Hout
    by (by vm_compute).
  split_and!; [by vm_compute | | | done | done | done | | | by vm_compute].
  - exists page_n1. split; [left | done].
  - intros Hno. apply (Hno page_n2); [right; left | done].
  - rewrite Hout. right. left.
  - rewrite Hout. apply (bool_decide_unpack _). by vm_compute.
Qed.

(** ** Trimming *)

Section strip_facts.
Implicit Types (s t : str) (c : N).

Lemma lstrip_suffix s : ∃ pre, s = pre ++ lstrip s.
Proof.
  induction s as [|c s [pre IH]]; simpl; [by exists []|].
  destruct (isspace c); [|by exists []].
  exists (c :: pre). by rewrite IH at 1.
Qed.

Lemma lstrip_head s c : head (lstrip s) = Some c → isspace c = false.
Proof.
  induction s as [|d s IH]; simpl; [done|].
  destruct (isspace d) eqn:Hd; [done|]. simpl. by intros [= <-].
Qed.

Lemma lstrip_id s : (∀ c, head s = Some c → isspace c = false) → lstrip s = s.
Proof.
  destruct s as [|c s]; simpl; [done|].
  intros Hc. by rewrite (Hc c eq_refl).
Qed.

Lemma rstrip_prefix s : ∃ post, s = rstrip s ++ post.
Proof.
  unfold rstrip. destruct (lstrip_suffix (reverse s)) as [pre Hpre].
  exists (reverse pre).
  by rewrite <- reverse_app, <- Hpre, reverse_involutive.
Qed.

Lemma rstrip_last s c : last (rstrip s) = Some c → isspace c = false.
Proof. unfold rstrip. rewrite last_reverse. apply lstrip_head. Qed.

Lemma rstrip_id s : (∀ c, last s = Some c → isspace c = false) → rstrip s = s.
Proof.
  intros Hc. unfold rstrip. rewrite lstrip_id, reverse_involutive; [done|].
  intros c. rewrite head_reverse. apply Hc.
Qed.

Lemma strip_head s c : head (strip s) = Some c → isspace c = false.
Proof. apply lstrip_head. Qed.

Lemma strip_last s c : last (strip s) = Some c → isspace c = false.
Proof.
  unfold strip. destruct (lstrip_suffix (rstrip s)) as [pre Hpre].
  intros Hlast. apply (rstrip_last s). rewrite Hpre.
  destruct (lstrip (rstrip s)) as [|d t]; [done|].
  by rewrite last_app_cons.
Qed.

(** What [strip] returns is a contiguous part of its argument. *)
Lemma strip_infix s : ∃ pre post, s = pre ++ strip s ++ post.
Proof.
  unfold strip. destruct (rstrip_prefix s) as [post Hpost].
  destruct (lstrip_suffix (rstrip s)) as [pre Hpre].
  exists pre, post. rewrite Hpost at 1. rewrite Hpre at 1.
  by rewrite <- app_assoc.
Qed.

Lemma elem_of_strip s c : c ∈ strip s → c ∈ s.
Proof.
  destruct (strip_infix s) as (pre & post & Hs). intros Hc.
  rewrite Hs, !elem_of_app. auto.
Qed.

(** A string without blanks at either end is left as it is. *)
Lemma strip_id s :
  (∀ c, head s = Some c → isspace c = false) →
  (∀ c, last s = Some c → isspace c = false) →
  strip s = s.
Proof.
  intros Hhead Hlast. unfold strip. by rewrite rstrip_id, lstrip_id.
Qed.

Lemma strip_idemp s : strip (strip s) = strip s.
Proof. apply strip_id; [apply strip_head | apply strip_last]. Qed.

End strip_facts.

(** An entry of header lines without newline is trimmed, has no newline,
    and has no colon in its key. *)
Lemma last_entry_ok (lines : list (list N)) key value :
  Forall (λ line, NL ∉ line) lines →
  last_entry lines key value →
  strip key = key ∧ strip value = value
  ∧ (NL ∉ key) ∧ (NL ∉ value) ∧ (COLON ∉ key).
Proof.
  intros Hlines (i & line & Hline & (k & v & -> & Hk & -> & ->) & _).
  apply list_elem_of_lookup_2 in Hline.
  rewrite Forall_forall in Hlines. apply Hlines in Hline.
  rewrite not_elem_of_app, not_elem_of_cons in Hline.
  destruct Hline as (Hnk & _ & Hnv).
  split_and!; [apply strip_idemp | apply strip_idemp | | |];
    intros Hin%elem_of_strip; done.
Qed.

(** X1. Whatever the content, every key and value of the parsed header is
    trimmed (trimming it again changes nothing) and has no newline, and no
    key has a colon. *)
Theorem parse_frontmatter_entries content fm body key value :
  parse_frontmatter content = Ok (fm, body) →
  fm !! key = Some value →
  strip key = key ∧ strip value = value
  ∧ (NL ∉ key) ∧ (NL ∉ value) ∧ (COLON ∉ key).
Proof.
  intros Hparse Hkey.
  destruct (parse_frontmatter_cases content)
    as [[_ Hp] | [(_ & _ & Hp) | (_ & e & fm' & _ & Hp & Hfm)]];
    rewrite Hp in Hparse; injection Hparse as <- <-;
    [by rewrite lookup_empty in Hkey.. |].
  apply Hfm in Hkey. eapply last_entry_ok; [|done].
  by apply split_pieces.
Qed.

Lemma parse_frontmatter_entries_witness :
  strip (lit "title") = lit "title" ∧ strip (lit "Foo") = lit "Foo"
  ∧ (NL ∉ lit "title") ∧ (NL ∉ lit "Foo") ∧ (COLON ∉ lit "title").
Proof.
  apply (parse_frontmatter_entries content_foo
           {[ lit "title" := lit "Foo" ]} (lit "Body text")).
  - by vm_compute.
  - apply lookup_singleton_eq.
Defined.

(** ** More on the scan: loop invariants and the log *)

Section scan_more.
Implicit Types (pages : list Page) (fs : option node) (t : list event).

(** A property of the loop-carried value that every iteration keeps holds
    when the loop returns. *)
Lemma outcome_for_in_inv {A S} (P : S → Prop) (xs : list A) (s s' : S)
    (body : S → A → IO S) fs :
  P s →
  (∀ s x s', x ∈ xs → P s → outcome (body s x) fs = Ok s' → P s') →
  outcome (for_in xs s body) fs = Ok s' → P s'.
Proof.
  revert s. induction xs as [|x xs IH]; intros s Hs Hbody; simpl.
  - by intros [= <-].
  - rewrite outcome_bind.
    destruct (outcome (body s x) fs) as [s1|e] eqn:Hx; [|done].
    apply IH; [apply (Hbody s x); [left | done | done] |].
    intros s2 y s3 Hy. apply Hbody. by right.
Qed.

Lemma scan_node_Ok fs pages node_dir pages' :
  outcome (scan_node pages node_dir) fs = Ok pages' →
  pages' = pages
  ∨ ∃ text fm body,
      startswith (name node_dir) (lit ".") = false
      ∧ parse_frontmatter text = Ok (fm, body)
      ∧ pages' = pages ++ [(node_dir ++ [lit "index.md"],
                            get fm (lit "title") [], strip body)].
Proof.
  unfold scan_node. rewrite outcome_bind. unfold outcome at 1, is_dir.
  cbn [snd].
  destruct (negb _ || startswith (name node_dir) (lit ".")) eqn:Hskip.
  { intros [= <-]. by left. }
  apply orb_false_iff in Hskip as [_ Hdot].
  rewrite outcome_bind. unfold outcome at 1, exists_. cbn [snd].
  destruct (at_path fs (node_dir ++ [lit "index.md"])) as [x|] eqn:Hidx;
    [|intros [= <-]; by left].
  rewrite outcome_bind. unfold outcome at 1, read_text. cbn [snd].
  rewrite Hidx. destruct x as [text|?|[|]]; [|done..].
  rewrite outcome_bind. unfold outcome at 1, lift. cbn [snd].
  destruct (parse_frontmatter text) as [[fm body]|] eqn:Hparse; [|done].
  intros [= <-]. right. by exists text, fm, body.
Qed.

Lemma get_title_trimmed text fm body :
  parse_frontmatter text = Ok (fm, body) →
  strip (get fm (lit "title") []) = get fm (lit "title") []
  ∧ (NL ∉ get fm (lit "title") []).
Proof.
  intros Hparse. unfold get.
  destruct (fm !! lit "title") as [value|] eqn:Htitle; simpl;
    [|split; [done | apply not_elem_of_nil]].
  destruct (parse_frontmatter_cases text)
    as [[_ Hp] | [(_ & _ & Hp) | (_ & e & fm' & _ & Hp & Hfm)]];
    rewrite Hp in Hparse; injection Hparse as <- <-;
    [by rewrite lookup_empty in Htitle.. |].
  apply Hfm in Htitle.
  destruct (last_entry_ok _ _ _ (split_pieces _ NL (-1) eq_refl) Htitle)
    as (_ & ? & _ & ? & _).
  done.
Qed.

Lemma scan_workspace_shape fs pages ws pages' :
  Forall page_shape pages →
  outcome (scan_workspace pages [ws]) fs = Ok pages' →
  Forall page_shape pages'.
Proof.
  intros Hpages. unfold scan_workspace.
  rewrite outcome_bind. unfold outcome at 1, is_dir. cbn [snd].
  destruct (negb _ || startswith (name [ws]) (lit ".")) eqn:Hskip.
  { by intros [= <-]. }
  apply orb_false_iff in Hskip as [_ Hdot].
  rewrite outcome_bind. unfold outcome at 1, iterdir. cbn [snd].
  destruct (at_path fs [ws]) as [[?|entries|?]|]; [done | | done..].
  apply (outcome_for_in_inv (Forall page_shape)); [done|].
  intros s node_dir s' [e [-> _]]%list_elem_of_fmap Hs
    [-> | (text & fm & body & Hdot' & Hparse & ->)]%scan_node_Ok; [done|].
  apply Forall_app. split; [done|]. apply Forall_singleton.
  destruct (get_title_trimmed _ _ _ Hparse) as [Htrim Hnl].
  exists ws, e.1. split_and!; [done | done | done | done | done |].
  apply strip_idemp.
Qed.

Lemma scan_pages_Forall_shape fs pages :
  outcome scan_pages fs = Ok pages → Forall page_shape pages.
Proof.
  unfold scan_pages. cbv zeta.
  rewrite outcome_bind. unfold outcome at 1, iterdir. cbn [snd].
  destruct (at_path fs DATA_DIR) as [[?|entries|?]|]; [done | | done..].
  apply (outcome_for_in_inv (Forall page_shape)); [done|].
  intros s ws_dir s' [e [-> _]]%list_elem_of_fmap Hs.
  by apply scan_workspace_shape.
Qed.

(** The log of a computation, piece by piece. *)
Lemma log_bind {A B} (P : event → Prop) (m : IO A) (f : A → IO B) fs :
  Forall P (m fs).1 →
  (∀ a, outcome m fs = Ok a → Forall P (f a fs).1) →
  Forall P ((m ≫= f) fs).1.
Proof.
  intros Hm Hf. rewrite io_bind_eq. unfold outcome in Hf.
  destruct (m fs) as [t [a|e]]; simpl in *; [|done].
  specialize (Hf a eq_refl). destruct (f a fs) as [t' r]; simpl in *.
  by apply Forall_app.
Qed.

Lemma log_for_in {A S} (P : event → Prop) (xs : list A) (s : S)
    (body : S → A → IO S) fs :
  (∀ s x, x ∈ xs → Forall P (body s x fs).1) →
  Forall P (for_in xs s body fs).1.
Proof.
  revert s. induction xs as [|x xs IH]; intros s Hbody; simpl; [done|].
  apply log_bind; [apply Hbody; left|].
  intros s' _. apply IH. intros s'' y Hy. apply Hbody. by right.
Qed.

Lemma is_dir_true fs (p : list (list N)) :
  outcome (is_dir p) fs = Ok true → ∃ entries, at_path fs p = Some (Dir entries).
Proof.
  unfold outcome, is_dir. cbn [snd].
  destruct (at_path fs p) as [[?|entries|?]|]; [done | eauto | done..].
Qed.

Lemma scan_node_log fs pages ws nd :
  shown fs [ws] →
  Forall (scan_event fs) (scan_node pages [ws; nd] fs).1.
Proof.
  intros Hws. unfold scan_node. apply log_bind; [by apply Forall_singleton|].
  intros d Hd. destruct (negb d || _) eqn:Hskip; [done|].
  apply orb_false_iff in Hskip as [->%negb_false_iff Hdot].
  apply is_dir_true in Hd.
  apply log_bind; [by apply Forall_singleton|].
  intros e He. unfold outcome, exists_ in He. cbn [snd] in He.
  destruct e; [|done].
  apply log_bind.
  - apply Forall_singleton. cbn [app scan_event].
    refine (conj eq_refl (conj Hws (conj (conj Hd Hdot) _))).
    cbn [app] in He. by destruct (at_path fs [ws; nd; lit "index.md"]).
  - intros text _. apply log_bind; [done|]. by intros [fm body] _.
Qed.

Lemma scan_workspace_log fs pages ws :
  Forall (scan_event fs) (scan_workspace pages [ws] fs).1.
Proof.
  unfold scan_workspace. apply log_bind; [by apply Forall_singleton|].
  intros d Hd. destruct (negb d || _) eqn:Hskip; [done|].
  apply orb_false_iff in Hskip as [->%negb_false_iff Hdot].
  apply is_dir_true in Hd. assert (shown fs [ws]) as Hws by done.
  apply log_bind; [by apply Forall_singleton|].
  intros node_dirs Hdirs. apply log_for_in.
  intros s node_dir Hin. unfold outcome, iterdir in Hdirs. cbn [snd] in Hdirs.
  destruct (at_path fs [ws]) as [[?|entries|?]|] eqn:Hat; [done | | done..].
  injection Hdirs as <-. apply list_elem_of_fmap in Hin as [e [-> _]].
  by apply scan_node_log.
Qed.

Lemma scan_pages_log fs : Forall (scan_event fs) (scan_pages fs).1.
Proof.
  unfold scan_pages. cbv zeta. apply log_bind; [by apply Forall_singleton|].
  intros ws_dirs Hdirs. apply log_for_in.
  intros s ws_dir Hin. unfold outcome, iterdir in Hdirs. cbn [snd] in Hdirs.
  destruct (at_path fs DATA_DIR) as [[?|entries|?]|]; [done | | done..].
  injection Hdirs as <-. apply list_elem_of_fmap in Hin as [e [-> _]].
  apply scan_workspace_log.
Qed.

End scan_more.

(** X2. Whatever the tree, every page of a scan that returns has a path
    [ws/nd/index.md] with neither name starting with a dot, a title that is
    trimmed and has no newline, and a trimmed body. *)
Theorem scan_pages_shape fs pages p :
  outcome scan_pages fs = Ok pages → p ∈ pages → page_shape p.
Proof.
  intros Hscan%scan_pages_Forall_shape Hp.
  rewrite Forall_forall in Hscan. by apply Hscan.
Qed.

Lemma scan_pages_shape_witness : page_shape page_n1.
Proof.
  apply (scan_pages_shape (Some (Dir entries_w1)) [page_n1; page_n2]).
  - by vm_compute.
  - left.
Defined.

(** X3. Whatever the tree, the scan prints nothing; it lists only the root
    and workspaces, enters only directories whose name does not start with
    a dot, and looks for and reads nothing but an [index.md] directly inside
    such a node of such a workspace, reading it only when it exists. *)
Theorem scan_pages_events fs ev :
  ev ∈ (scan_pages fs).1 → scan_event fs ev.
Proof.
  intros Hev. pose proof (scan_pages_log fs) as Hlog.
  rewrite Forall_forall in Hlog. by apply Hlog.
Qed.

Lemma scan_pages_events_witness :
  scan_event (Some (Dir entries_w1))
    (ReadText [lit "w1"; lit "n1"; lit "index.md"]).
Proof.
  apply (scan_pages_events (Some (Dir entries_w1))).
  vm_compute. do 5 right. left.
Defined.

(** ** More on the checks and the report *)

Section report_more.
Implicit Types (pages : list Page) (fs : option node).

Lemma reports_sublist (holds : Prop) msg (errs : list (list N)) :
  reports holds msg errs → errs `sublist_of` [msg].
Proof. intros [[_ ->] | [_ ->]]; [apply sublist_nil_l | done]. Qed.

Lemma checks_sublist pages :
  checks pages
    `sublist_of` all_messages (count_title (lit "Page To Rename") pages).
Proof.
  destruct (checks_reports pages)
    as (e1 & e2 & e3 & e4 & e5 & e6 & -> & H1 & H2 & H3 & H4 & H5 & H6).
  change (all_messages ?n)
    with ([msg1] ++ [msg2 n] ++ [msg3] ++ [msg4] ++ [msg5] ++ [msg6]).
  repeat apply sublist_app; by eapply reports_sublist.
Qed.

Lemma all_messages_NoDup stale : NoDup (all_messages stale).
Proof.
  unfold all_messages.
  repeat (apply NoDup_cons; split;
          [rewrite ?not_elem_of_cons; split_and?;
             first [apply not_elem_of_nil
                   | intros Heq; vm_compute in Heq; discriminate] |]).
  apply NoDup_nil_2.
Qed.

Lemma success_line_not_error (errors : list (list N)) :
  success_line ∉ error_line <$> errors.
Proof. intros (e & Heq & _)%list_elem_of_fmap. discriminate. Qed.

Lemma success_line_not_summary count : success_line ≠ summary_line count.
Proof. intros Heq. vm_compute in Heq. discriminate. Qed.

End report_more.

(** X4. Whatever the checks give, the error list is made of the six
    messages in the order of the checks, each at most once: it has at most
    six entries and none twice. *)
Theorem checks_bounded pages :
  checks pages
    `sublist_of` all_messages (count_title (lit "Page To Rename") pages)
  ∧ (length (checks pages) ≤ 6)%nat
  ∧ NoDup (checks pages).
Proof.
  pose proof (checks_sublist pages) as Hsub. split_and!; [done | |].
  - by apply sublist_length in Hsub.
  - eapply sublist_NoDup; [apply all_messages_NoDup | done].
Qed.

(** X5. More pages never break a check that looks for a page: when every
    page of [pages] is among [pages'], each error on [pages'] is already an
    error on [pages], apart from the one about stale titles; and a stale
    title found in [pages] is found in [pages'] too. *)
Theorem checks_monotone pages pages' :
  (∀ p, p ∈ pages → p ∈ pages') →
  (∀ e, e ∈ checks pages' →
        e ∈ checks pages
        ∨ e = msg2 (count_title (lit "Page To Rename") pages'))
  ∧ (¬ pred2 pages → ¬ pred2 pages').
Proof.
  intros Hsub.
  assert (Htitle : ∀ title, has_title title pages → has_title title pages').
  { intros title (p & Hp & <-). exists p. auto. }
  assert (Hbody : ∀ sub, has_body_with sub pages → has_body_with sub pages').
  { intros sub (p & i & Hp & Hi). exists p, i. auto. }
  split; [|intros Hno Hpred; apply Hno; intros p Hp; apply Hpred; auto].
  destruct (checks_reports pages)
    as (e1 & e2 & e3 & e4 & e5 & e6 & -> & H1 & H2 & H3 & H4 & H5 & H6).
  destruct (checks_reports pages')
    as (e1' & e2' & e3' & e4' & e5' & e6' & -> & H1' & H2' & H3' & H4'
        & H5' & H6').
  assert (Hkeep : ∀ (P P' : Prop) msg (errs errs' : list (list N)) e,
    (P → P') → reports P msg errs → reports P' msg errs' → e ∈ errs' →
    e ∈ errs).
  { intros P P' msg errs errs' e HP [[HP1 ->] | [_ ->]] [[_ ->] | [HP2 ->]].
    - done.
    - destruct HP2. auto.
    - by intros ?%not_elem_of_nil.
    - done. }
  intros e. rewrite !elem_of_app.
  intros [He | [He | [He | [He | [He | He]]]]].
  - left. left. eapply (Hkeep _ _ _ _ _ _ (Htitle _)); eauto.
  - right. destruct H2' as [[_ ->] | [_ ->]];
      [by apply not_elem_of_nil in He | by apply list_elem_of_singleton in He].
  - left. do 2 right. left. eapply (Hkeep _ _ _ _ _ _ (Htitle _)); eauto.
  - left. do 3 right. left. eapply (Hkeep _ _ _ _ _ _ (Hbody _)); eauto.
  - left. do 4 right. left. eapply (Hkeep _ _ _ _ _ _ (Htitle _)); eauto.
  - left. do 4 right. right. eapply (Hkeep _ _ _ _ _ _ (Htitle _)); eauto.
Qed.

Lemma checks_monotone_witness :
  (∀ e, e ∈ checks [page_n1; page_n2] →
        e ∈ checks [page_n2]
        ∨ e = msg2 (count_title (lit "Page To Rename") [page_n1; page_n2]))
  ∧ (¬ pred2 [page_n2] → ¬ pred2 [page_n1; page_n2]).
Proof.
  apply (checks_monotone [page_n2] [page_n1; page_n2]).
  intros p Hp. right. exact Hp.
Defined.

(** X6. Whatever the tree, the exit status is 0 or 1, and the line
    [All e2e data verifications passed] is printed exactly in the runs that
    end with status 0. *)
Theorem success_line_iff fs :
  ((script fs).2 = 0 ∨ (script fs).2 = 1)
  ∧ (success_line ∈ stdout (script fs).1 ↔ (script fs).2 = 0).
Proof.
  destruct (script_cases fs)
    as [(_ & -> & ->) | [(_ & -> & ->) | [(_ & -> & ->)
        | (pages & _ & _ & -> & ->)]]].
  - split; [by right|]. split; [|done].
    by intros [=]%list_elem_of_singleton.
  - split; [by right|]. split; [|done]. by intros ?%not_elem_of_nil.
  - split; [by right|]. split; [|done].
    by intros [=]%list_elem_of_singleton.
  - destruct (truthy (checks pages)).
    + split; [by right|]. split; [|done]. rewrite app_nil_r.
      intros [Heq | Hin]%elem_of_cons.
      * by destruct (success_line_not_summary (length pages)).
      * by destruct (success_line_not_error (checks pages)).
    + split; [by left|]. split; [done|]. intros _.
      right. apply elem_of_app. right. left.
Qed.

(** ** Rendering a header and parsing it back *)

Section roundtrip.
Implicit Types (s l rest body : str) (lines : list (list N)).

Lemma find_at_skip l rest c sub pos :
  c ∉ l →
  find_at (l ++ rest) (c :: sub) pos
  = find_at rest (c :: sub) (pos + Z.of_nat (length l)).
Proof.
  revert pos. induction l as [|x l IH]; intros pos Hl; simpl app.
  - f_equal. simpl. lia.
  - apply not_elem_of_cons in Hl as [Hne Hl].
    rewrite find_at_unfold. simpl startswith.
    destruct (N.eqb_spec c x) as [->|_]; [done|]. simpl.
    rewrite IH by done. f_equal. simpl length. lia.
Qed.

(** A line with a colon and without newline is not the delimiter line. *)
Lemma header_line_not_terminator l rest :
  NL ∉ l → COLON ∈ l → startswith (NL :: l ++ NL :: rest) TERMINATOR = false.
Proof.
  intros Hnl Hcolon.
  destruct (startswith (NL :: l ++ NL :: rest) TERMINATOR) eqn:Hs; [|done].
  apply startswith_prefix in Hs as [post Hs]. exfalso.
  destruct l as [|a [|b [|c [|d l]]]]; simplify_eq/=.
  - apply (bool_decide_pack _) in Hcolon. by vm_compute in Hcolon.
  - apply Hnl. do 3 right. left.
Qed.

Lemma find_at_line l rest pos :
  NL ∉ l → COLON ∈ l →
  find_at (NL :: l ++ NL :: rest) TERMINATOR pos
  = find_at (NL :: rest) TERMINATOR (pos + 1 + Z.of_nat (length l)).
Proof.
  intros Hnl Hcolon. rewrite find_at_unfold.
  rewrite header_line_not_terminator by done. unfold TERMINATOR.
  by rewrite (find_at_skip l (NL :: rest) NL) by done.
Qed.

Lemma find_at_header lines body pos :
  Forall (λ l, (NL ∉ l) ∧ COLON ∈ l) lines →
  find_at (NL :: join NL lines ++ TERMINATOR ++ body) TERMINATOR pos
  = pos + 1 + Z.of_nat (length (join NL lines)).
Proof.
  intros Hlines. revert pos.
  assert (Hhere : ∀ pos, find_at (TERMINATOR ++ body) TERMINATOR pos = pos).
  { intros pos. rewrite find_at_unfold.
    assert (startswith (TERMINATOR ++ body) TERMINATOR = true) as ->
      by (apply startswith_prefix; by eexists).
    done. }
  induction Hlines as [|l lines [Hnl Hcolon] _ IH]; intros pos.
  - cbn [join app]. rewrite find_at_unfold.
    assert (startswith (NL :: TERMINATOR ++ body) TERMINATOR = false) as ->
      by (by vm_compute).
    rewrite Hhere. simpl. lia.
  - destruct lines as [|l' lines].
    + cbn [join]. change (TERMINATOR ++ body) with (NL :: DELIM ++ NL :: body).
      rewrite find_at_line by done.
      change (NL :: DELIM ++ NL :: body) with (TERMINATOR ++ body).
      rewrite Hhere. lia.
    + change (join NL (l :: l' :: lines))
        with (l ++ NL :: join NL (l' :: lines)).
      rewrite <- app_assoc. cbn [app].
      rewrite find_at_line, IH by done.
      rewrite length_app. cbn [length]. lia.
Qed.

Lemma split_join_inv lines sep m :
  m < 0 → lines ≠ [] → Forall (λ l, sep ∉ l) lines →
  split (join sep lines) sep m = lines.
Proof.
  intros Hm Hne Hlines. revert m Hm.
  induction Hlines as [|l lines Hl _ IH]; intros m Hm; [done|].
  destruct lines as [|l' lines].
  - by apply split_no_sep.
  - change (join sep (l :: l' :: lines))
      with (l ++ sep :: join sep (l' :: lines)).
    rewrite split_first by (done || lia). f_equal. apply IH; [done | lia].
Qed.

Lemma strip_fixed_ends s :
  strip s = s →
  (∀ c, head s = Some c → isspace c = false)
  ∧ (∀ c, last s = Some c → isspace c = false).
Proof.
  intros Hs. split; intros c; rewrite <- Hs;
    [apply strip_head | apply strip_last].
Qed.

(** The blank after the colon is trimmed away. *)
Lemma strip_blank s : strip s = s → strip (32%N :: s) = s.
Proof.
  intros Hs. destruct (strip_fixed_ends s Hs) as [Hhead Hlast].
  destruct s as [|c s]; [done|]. unfold strip.
  rewrite rstrip_id.
  - change (lstrip (32%N :: c :: s)) with (lstrip (c :: s)).
    by apply lstrip_id.
  - intros d. rewrite last_cons_cons. apply Hlast.
Qed.

Lemma render_line_ok entry :
  entry_ok entry →
  (NL ∉ render_line entry) ∧ COLON ∈ render_line entry.
Proof.
  intros (_ & _ & Hk & Hv & _). unfold render_line. split.
  - rewrite not_elem_of_app, !not_elem_of_cons. by split_and!.
  - apply elem_of_app. right. left.
Qed.

Lemma parse_line_render fm entry :
  entry_ok entry →
  parse_line fm (render_line entry) = Ok (<[entry.1 := entry.2]> fm).
Proof.
  intros (Hk & Hv & _ & _ & Hcolon). unfold parse_line, render_line.
  assert (contains (entry.1 ++ COLON :: 32%N :: entry.2) [COLON] = true)
    as -> by (apply contains_char, elem_of_app; right; left).
  rewrite split_first, split_0 by done.
  by rewrite Hk, strip_blank.
Qed.

Lemma parse_lines_render entries :
  Forall entry_ok entries →
  for_in (render_line <$> entries) ∅ parse_line
  = Ok (list_to_map (reverse entries)).
Proof.
  induction entries as [|entry entries IH] using rev_ind; [done|].
  intros [Hentries Hentry]%Forall_app.
  rewrite Forall_singleton in Hentry.
  rewrite fmap_app. cbn [fmap list_fmap]. rewrite for_in_snoc, IH by done.
  cbn [mbind result_bind]. rewrite parse_line_render by done.
  rewrite reverse_snoc. by destruct entry.
Qed.

End roundtrip.

(** X7. A file made of the delimiter line, one line [key: value] for each
    of some entries, the delimiter line and a body parses back to these
    entries (a later entry replacing an earlier one with the same key) and
    to this body, whenever each key and value is as the parser returns them:
    trimmed, without newline, and without colon in the key. *)
Theorem parse_frontmatter_render entries body :
  Forall entry_ok entries →
  parse_frontmatter (render entries body)
  = Ok (list_to_map (reverse entries), body).
Proof.
  intros Hentries.
  assert (Hlines : Forall (λ l, (NL ∉ l) ∧ COLON ∈ l)
                     (render_line <$> entries)).
  { apply Forall_fmap. eapply Forall_impl; [done|]. apply render_line_ok. }
  set (header := join NL (render_line <$> entries)).
  assert (Hfind : find (render entries body) TERMINATOR 3
                  = Z.of_nat (4 + length header)).
  { unfold find, render. fold header. cbv zeta.
    rewrite !length_app. change (length DELIM) with 3%nat.
    destruct (Z.ltb_spec 3 0); [lia|].
    destruct (Z.ltb_spec (Z.of_nat (3 + (length [NL] + (length header +
      (length TERMINATOR + length body))))) 3); [simpl in *; lia|].
    change (Z.to_nat 3) with (length DELIM). rewrite drop_app_length.
    change ([NL] ++ header ++ TERMINATOR ++ body)
      with (NL :: header ++ TERMINATOR ++ body).
    unfold header. rewrite find_at_header by done. lia. }
  unfold parse_frontmatter.
  assert (startswith (render entries body) DELIM = true) as ->
    by (apply startswith_prefix; by eexists).
  cbv zeta. rewrite Hfind. cbn [negb].
  destruct (Z.eqb_spec (Z.of_nat (4 + length header)) (-1)); [lia|].
  assert (Hlen : length (render entries body)
                 = (9 + length header + length body)%nat).
  { unfold render. fold header. rewrite !length_app. simpl. lia. }
  change 4 with (Z.of_nat 4). rewrite slice_mid by lia.
  replace (Z.of_nat (4 + length header) + 5)
    with (Z.of_nat (9 + length header)) by lia.
  rewrite slice_from_mid by lia.
  assert (drop 4 (render entries body) = header ++ TERMINATOR ++ body) as Hd4
    by done.
  assert (drop (9 + length header) (render entries body) = body) as ->.
  { replace (9 + length header)%nat with (4 + (length header + 5))%nat by lia.
    rewrite <- drop_drop, Hd4, <- drop_drop, drop_app_length. done. }
  rewrite Hd4. replace (4 + length header - 4)%nat with (length header) by lia.
  rewrite take_app_length.
  destruct entries as [|entry entries]; [done|].
  unfold header. rewrite split_join_inv; [| done | done |].
  - by rewrite parse_lines_render.
  - eapply Forall_impl; [exact Hlines|]. by intros l [? _].
Qed.

Lemma parse_frontmatter_render_witness :
  parse_frontmatter
    (render [(lit "title", lit "A"); (lit "title", lit "B: C")] (lit "x"))
  = Ok (list_to_map
          (reverse [(lit "title", lit "A"); (lit "title", lit "B: C")]),
        lit "x").
Proof.
  apply (parse_frontmatter_render
           [(lit "title", lit "A"); (lit "title", lit "B: C")] (lit "x")).
  repeat constructor; try done; apply (bool_decide_unpack _); by vm_compute.
Defined.

Section delimiter_edges.
Implicit Types (rest : str) (lines : list (list N)).

Lemma find_at_lines lines rest pos :
  Forall (λ l, (NL ∉ l) ∧ COLON ∈ l) lines →
  find_at (NL :: join NL lines ++ NL :: rest) TERMINATOR pos
  = find_at (NL :: rest) TERMINATOR
      (pos + 1 + Z.of_nat (length (join NL lines))).
Proof.
  intros Hlines. revert pos.
  induction Hlines as [|l lines [Hnl Hcolon] _ IH]; intros pos.
  - cbn [join app]. rewrite find_at_unfold.
    assert (startswith (NL :: NL :: rest) TERMINATOR = false) as ->
      by (by vm_compute).
    f_equal. simpl. lia.
  - destruct lines as [|l' lines].
    + cbn [join]. by rewrite find_at_line.
    + change (join NL (l :: l' :: lines))
        with (l ++ NL :: join NL (l' :: lines)).
      rewrite <- app_assoc. cbn [app].
      rewrite find_at_line, IH by done. f_equal.
      rewrite length_app. cbn [length]. lia.
Qed.

(** What the parser does when the character after the opening delimiter is
    not a newline: the search starts behind it. *)
Lemma find_after_delim c rest :
  c ≠ NL →
  find (DELIM ++ c :: rest) TERMINATOR 3 = find_at rest TERMINATOR 4.
Proof.
  intros Hc. unfold find. cbv zeta.
  destruct (Z.ltb_spec 3 0); [lia|].
  destruct (Z.ltb_spec (Z.of_nat (length (DELIM ++ c :: rest))) 3) as [Hl|_].
  { rewrite length_app in Hl. simpl in Hl. lia. }
  change (drop (Z.to_nat 3) (DELIM ++ c :: rest)) with (c :: rest).
  rewrite find_at_unfold.
  assert (startswith (c :: rest) TERMINATOR = false) as ->; [|done].
  unfold TERMINATOR. cbn [startswith].
  destruct (N.eqb_spec NL c); [congruence | done].
Qed.

Lemma parse_after_delim c rest :
  c ≠ NL →
  (find_at rest TERMINATOR 4 = -1
   ∧ parse_frontmatter (DELIM ++ c :: rest) = Ok (∅, DELIM ++ c :: rest))
  ∨ ∃ i, find_at rest TERMINATOR 4 = 4 + Z.of_nat i
         ∧ parse_frontmatter (DELIM ++ c :: rest)
           = (fm ← for_in (split (take i rest) NL (-1)) ∅ parse_line;
              Ok (fm, drop (i + 5) rest)).
Proof.
  intros Hc. unfold parse_frontmatter.
  assert (startswith (DELIM ++ c :: rest) DELIM = true) as ->
    by (apply startswith_prefix; by eexists).
  cbv zeta. cbn [negb]. rewrite find_after_delim by done.
  destruct (find_at_spec rest TERMINATOR 4)
    as [[-> _] | (i & -> & _ & Hocc%occurs_at_length & _)]; [by left|].
  right. exists i. split; [done|].
  change (length TERMINATOR) with 5%nat in Hocc.
  destruct (Z.eqb_spec (4 + Z.of_nat i) (-1)); [lia|].
  assert (length (DELIM ++ c :: rest) = (4 + length rest)%nat) as Hlen
    by (by rewrite length_app).
  replace (4 + Z.of_nat i) with (Z.of_nat (4 + i)) by lia.
  change 4 with (Z.of_nat 4) at 1. rewrite slice_mid by lia.
  replace (Z.of_nat (4 + i) + 5) with (Z.of_nat (4 + (i + 5))) by lia.
  rewrite slice_from_mid by lia.
  replace (4 + i - 4)%nat with i by lia.
  by rewrite <- drop_drop.
Qed.

End delimiter_edges.

(** X14. The closing delimiter counts only when a newline follows it: a
    file that ends right after the closing [---], without newline, is taken
    to have no header, and is returned whole as the body. *)
Theorem parse_frontmatter_unterminated entries :
  Forall entry_ok entries →
  parse_frontmatter (render_unterminated entries)
  = Ok (∅, render_unterminated entries).
Proof.
  intros Hentries.
  assert (Hlines : Forall (λ l, (NL ∉ l) ∧ COLON ∈ l)
                     (render_line <$> entries)).
  { apply Forall_fmap. eapply Forall_impl; [done|]. apply render_line_ok. }
  assert (Hfind : find (render_unterminated entries) TERMINATOR 3 = -1).
  { unfold find, render_unterminated. cbv zeta.
    destruct (Z.ltb_spec 3 0); [lia|].
    destruct (Z.ltb_spec (Z.of_nat (length (DELIM ++ [NL]
      ++ join NL (render_line <$> entries) ++ [NL] ++ DELIM))) 3) as [Hl|_].
    { rewrite length_app in Hl. simpl in Hl. lia. }
    change (Z.to_nat 3) with (length DELIM). rewrite drop_app_length.
    change ([NL] ++ ?h ++ [NL] ++ DELIM) with (NL :: h ++ NL :: DELIM).
    by rewrite find_at_lines. }
  unfold parse_frontmatter.
  assert (startswith (render_unterminated entries) DELIM = true) as ->
    by (apply startswith_prefix; by eexists).
  cbv zeta. by rewrite Hfind.
Qed.

Lemma parse_frontmatter_unterminated_witness :
  parse_frontmatter (render_unterminated [(lit "title", lit "Foo")])
  = Ok (∅, render_unterminated [(lit "title", lit "Foo")]).
Proof.
  apply (parse_frontmatter_unterminated [(lit "title", lit "Foo")]).
  repeat constructor; try done; apply (bool_decide_unpack _); by vm_compute.
Defined.

(** X15. The character right after the opening [---] is skipped without
    being looked at, unless it is a newline: two contents that differ only
    there are both taken to have no header, or both parse to the same
    mapping and the same body. *)
Theorem parse_frontmatter_fourth_char c c' rest :
  c ≠ NL → c' ≠ NL →
  (parse_frontmatter (DELIM ++ c :: rest) = Ok (∅, DELIM ++ c :: rest)
   ∧ parse_frontmatter (DELIM ++ c' :: rest) = Ok (∅, DELIM ++ c' :: rest))
  ∨ ∃ fm body,
      parse_frontmatter (DELIM ++ c :: rest) = Ok (fm, body)
      ∧ parse_frontmatter (DELIM ++ c' :: rest) = Ok (fm, body).
Proof.
  intros Hc Hc'.
  destruct (parse_after_delim c rest Hc) as [[Hnone ->] | (i & Hi & ->)],
    (parse_after_delim c' rest Hc') as [[Hnone' ->] | (i' & Hi' & ->)];
    [by left | lia | lia |].
  assert (i' = i) as -> by lia. right.
  destruct (parse_lines_spec (split (take i rest) NL (-1))) as (fm & -> & _).
  by exists fm, (drop (i + 5) rest).
Qed.

Lemma parse_frontmatter_fourth_char_witness :
  (parse_frontmatter (DELIM ++ 45%N :: [NL] ++ lit "t: x" ++ TERMINATOR)
   = Ok (∅, DELIM ++ 45%N :: [NL] ++ lit "t: x" ++ TERMINATOR)
   ∧ parse_frontmatter (DELIM ++ 32%N :: [NL] ++ lit "t: x" ++ TERMINATOR)
     = Ok (∅, DELIM ++ 32%N :: [NL] ++ lit "t: x" ++ TERMINATOR))
  ∨ ∃ fm body,
      parse_frontmatter (DELIM ++ 45%N :: [NL] ++ lit "t: x" ++ TERMINATOR)
      = Ok (fm, body)
      ∧ parse_frontmatter (DELIM ++ 32%N :: [NL] ++ lit "t: x" ++ TERMINATOR)
        = Ok (fm, body).
Proof.
  apply (parse_frontmatter_fourth_char 45%N 32%N
           ([NL] ++ lit "t: x" ++ TERMINATOR)); discriminate.
Defined.

(** ** The order of the pages *)

Section order_facts.
Implicit Types (root : node) (entries nodes : list (list N * node)).










End order_facts.



(** ** When the scan raises *)

Section raise_facts.
Implicit Types (root : node) (pages : list Page) (fs : option node).










End raise_facts.



(** ** lint_binaries.py *)

Section lint_facts.
Import Lint.
Variable lower : list N → list N.
Implicit Types (w : world) (s p f : str) (c : N).

(** The loop collects the flagged files, in order. *)
Lemma foldl_step w (files binaries : list (list N)) :
  foldl (step lower w) binaries files
  = binaries ++ filter (flagged lower w) files.
Proof.
  revert binaries. induction files as [|f files IH]; intros binaries.
  - by rewrite app_nil_r.
  - cbn [foldl]. rewrite IH. unfold step.
    destruct (is_binary w f) eqn:Hbin.
    + cbv zeta. case_bool_decide as Hext.
      * rewrite filter_cons_False; [done|]. by intros [_ ?].
      * rewrite filter_cons_True by done. by rewrite <- app_assoc.
    + rewrite filter_cons_False; [done|]. intros [? _]. congruence.
Qed.

Lemma rfind_from_notin s c pos best :
  c ∉ s → rfind_from s c pos best = best.
Proof.
  revert pos best. induction s as [|x s IH]; intros pos best; [done|].
  intros [Hne Hs]%not_elem_of_cons. simpl.
  destruct (N.eqb_spec x c) as [->|_]; [done|]. by apply IH.
Qed.

Lemma rfind_from_last (a b : list N) c pos best :
  c ∉ b → rfind_from (a ++ c :: b) c pos best = pos + Z.of_nat (length a).
Proof.
  intros Hb. revert pos best. induction a as [|x a IH]; intros pos best.
  - simpl. rewrite N.eqb_refl, rfind_from_notin by done. lia.
  - simpl. rewrite IH. lia.
Qed.

Lemma rfind_notin s c : c ∉ s → rfind s c = -1.
Proof. apply rfind_from_notin. Qed.

Lemma rfind_last (a b : list N) c :
  c ∉ b → rfind (a ++ c :: b) c = Z.of_nat (length a).
Proof. intros Hb. unfold rfind. by rewrite rfind_from_last. Qed.

(** [rfind] gives -1 or an index of the string. *)
Lemma rfind_range s c : -1 ≤ rfind s c < Z.of_nat (length s).
Proof.
  destruct (decide (c ∈ s)) as [Hin|Hin].
  - apply list_elem_of_split_r in Hin as (a & b & -> & Hb).
    rewrite rfind_last, length_app by done. simpl. lia.
  - rewrite rfind_notin by done. lia.
Qed.

(** After a directory prefix, the last slash is the one that ends it. *)
Lemma rfind_slash_prefix prefix s :
  dir_prefix prefix → SLASH ∉ s →
  rfind (prefix ++ s) SLASH + 1 = Z.of_nat (length prefix).
Proof.
  intros [-> | [dir ->]] Hs.
  - by rewrite rfind_notin.
  - rewrite <- app_assoc. cbn [app]. rewrite rfind_last by done.
    rewrite length_app. simpl. lia.
Qed.

Lemma slice_0_0 s : slice s 0 0 = [].
Proof.
  unfold slice, clip. cbn [Z.ltb Z.compare]. cbv iota.
  rewrite Z.min_l by lia. done.
Qed.

(** A last component without a dot has no extension. *)
Lemma splitext_no_dot prefix base :
  dir_prefix prefix → DOT ∉ base → SLASH ∉ base →
  splitext (prefix ++ base) = (prefix ++ base, []).
Proof.
  intros Hprefix Hdot Hslash. unfold splitext. cbv zeta.
  pose proof (rfind_slash_prefix prefix base Hprefix Hslash) as Hsep.
  assert (rfind (prefix ++ base) DOT < Z.of_nat (length prefix)) as Hd.
  { destruct (decide (DOT ∈ prefix)) as [Hin|Hin].
    - apply list_elem_of_split_r in Hin as (a & b & -> & Hb).
      rewrite <- app_assoc. cbn [app]. rewrite rfind_last.
      + rewrite length_app. simpl. lia.
      + by apply not_elem_of_app.
    - rewrite rfind_notin by (by apply not_elem_of_app). lia. }
  destruct (Z.ltb_spec (rfind (prefix ++ base) SLASH)
              (rfind (prefix ++ base) DOT)); [lia|].
  by rewrite slice_0_0.
Qed.

(** A name without dot and slash, followed by one dot and an extension
    without dot and slash, splits before that dot. *)
Lemma splitext_name_ext prefix name letters :
  dir_prefix prefix → name ≠ [] →
  DOT ∉ name → SLASH ∉ name → DOT ∉ letters → SLASH ∉ letters →
  splitext (prefix ++ name ++ DOT :: letters)
  = (prefix ++ name, DOT :: letters).
Proof.
  intros Hprefix Hname Hnd Hns Hld Hls. unfold splitext. cbv zeta.
  assert (SLASH ∉ name ++ DOT :: letters) as Hslash.
  { rewrite not_elem_of_app, not_elem_of_cons. by split_and!. }
  pose proof (rfind_slash_prefix prefix _ Hprefix Hslash) as Hsep.
  assert (rfind (prefix ++ name ++ DOT :: letters) DOT
          = Z.of_nat (length (prefix ++ name))) as Hdotidx.
  { rewrite app_assoc. by apply rfind_last. }
  rewrite Hdotidx, length_app.
  destruct name as [|c name]; [done|]. clear Hname.
  apply not_elem_of_cons in Hnd as [Hc _].
  destruct (Z.ltb_spec (rfind (prefix ++ (c :: name) ++ DOT :: letters) SLASH)
              (Z.of_nat (length prefix + length (c :: name))));
    [|simpl in *; lia].
  rewrite Hsep.
  replace (Z.to_nat _) with (S (length name)) by (cbn [length]; lia).
  cbn [splitext_loop].
  destruct (Z.ltb_spec (Z.of_nat (length prefix))
              (Z.of_nat (length prefix + length (c :: name))));
    [|simpl in *; lia].
  change ((c :: name) ++ DOT :: letters) with (c :: name ++ DOT :: letters)
    in *.
  assert (Hlen : length (prefix ++ c :: name ++ DOT :: letters)
                 = (length prefix + S (length name) + S (length letters))%nat).
  { rewrite !length_app. simpl. rewrite length_app. simpl. lia. }
  replace (Z.of_nat (length prefix) + 1)
    with (Z.of_nat (S (length prefix))) by lia.
  rewrite slice_mid by lia.
  replace (S (length prefix) - length prefix)%nat with 1%nat by lia.
  rewrite drop_app_length. cbn [take]. rewrite take_0.
  rewrite bool_decide_true by (intros [=]; congruence).
  change 0 with (Z.of_nat 0).
  rewrite slice_mid by (cbn [length] in *; lia).
  rewrite slice_from_mid by (cbn [length] in *; lia).
  replace (length prefix + length (c :: name) - 0)%nat
    with (length (prefix ++ c :: name)) by (rewrite length_app; lia).
  replace (length prefix + length (c :: name))%nat
    with (length (prefix ++ c :: name)) by (rewrite length_app; lia).
  rewrite drop_0.
  change (prefix ++ c :: name ++ DOT :: letters)
    with (prefix ++ (c :: name) ++ DOT :: letters).
  rewrite (app_assoc prefix).
  by rewrite take_app_length, drop_app_length.
Qed.

(** A last component that starts with its only dot has no extension. *)
Lemma splitext_only_ext prefix letters :
  dir_prefix prefix → DOT ∉ letters → SLASH ∉ letters →
  splitext (prefix ++ DOT :: letters) = (prefix ++ DOT :: letters, []).
Proof.
  intros Hprefix Hld Hls. unfold splitext. cbv zeta.
  assert (SLASH ∉ DOT :: letters) as Hslash
    by (by apply not_elem_of_cons).
  pose proof (rfind_slash_prefix prefix _ Hprefix Hslash) as Hsep.
  rewrite rfind_last by done.
  destruct (Z.ltb_spec (rfind (prefix ++ DOT :: letters) SLASH)
              (Z.of_nat (length prefix))); [|lia].
  replace (Z.to_nat _) with 0%nat by lia.
  cbn [splitext_loop]. by rewrite slice_0_0.
Qed.

Lemma allowed_shape ext :
  ext ∈ ALLOWED →
  ∃ letters, ext = DOT :: letters ∧ (DOT ∉ letters) ∧ (SLASH ∉ letters).
Proof.
  unfold ALLOWED. intros Hext.
  repeat (apply elem_of_cons in Hext as [-> | Hext];
    [eexists; split; [reflexivity|];
       split; apply (bool_decide_unpack _); by vm_compute |]).
  by apply not_elem_of_nil in Hext.
Qed.

End lint_facts.

(** X9. [is_binary] answers True exactly for a regular file that can be read
    and has a null byte among its first 1024 bytes: a null byte further on
    is not seen, and a missing path, a directory or an unreadable file gives
    False. *)
Theorem is_binary_first_kilobyte (w : Lint.world) (p : list N) :
  Lint.is_binary w p = true ↔
    ∃ content i, Lint.file w p = Lint.Regular content ∧ (i < 1024)%nat
                 ∧ content !! i = Some Byte.x00.
Proof.
  unfold Lint.is_binary, Lint.isfile, Lint.read_head.
  destruct (Lint.file w p) as [|content|]; simpl.
  - split; [done | by intros (? & ? & [=] & _)].
  - rewrite existsb_exists. split.
    + intros (b & Hin & Hb). apply Byte.byte_dec_bl in Hb as <-.
      apply list_elem_of_In, elem_of_take in Hin as (i & Hi & Hlt). eauto.
    + intros (content' & i & [= <-] & Hlt & Hi). exists Byte.x00.
      split; [|done]. apply list_elem_of_In, elem_of_take. eauto.
  - split; [done | by intros (? & ? & [=] & _)].
Qed.

(** X10. When git lists the tracked files, [main] reports exactly the listed
    files that are flagged, in the order of the listing: with none it
    prints nothing and returns 0, otherwise it prints the heading, then
    these files one per line, and returns 1. *)
Theorem lint_main_report lower (w : Lint.world) text :
  Lint.git_ls_files w = Lint.GitOutput text →
  (filter (flagged lower w) (Lint.splitlines text) = []
   ∧ Lint.main lower w = ([], Lint.Return 0))
  ∨ (filter (flagged lower w) (Lint.splitlines text) ≠ []
     ∧ Lint.main lower w
       = (Lint.Stdout (lit "Error: Binary executables found in repository:")
            :: (Lint.Stdout
                  <$> filter (flagged lower w) (Lint.splitlines text)),
          Lint.Return 1)).
Proof.
  intros Hgit. unfold Lint.main. rewrite Hgit. cbv zeta.
  rewrite foldl_step. cbn [app].
  destruct (filter (flagged lower w) (Lint.splitlines text)); [by left|].
  by right.
Qed.

Lemma lint_main_report_witness :
  (filter (flagged Lint.ascii_lower lint_world)
     (Lint.splitlines
        (lit "README.md" ++ [NL] ++ lit "bin/tool" ++ [NL]
           ++ lit "assets/logo.png" ++ [NL])) = []
   ∧ Lint.main Lint.ascii_lower lint_world = ([], Lint.Return 0))
  ∨ (filter (flagged Lint.ascii_lower lint_world)
       (Lint.splitlines
          (lit "README.md" ++ [NL] ++ lit "bin/tool" ++ [NL]
             ++ lit "assets/logo.png" ++ [NL])) ≠ []
     ∧ Lint.main Lint.ascii_lower lint_world
       = (Lint.Stdout (lit "Error: Binary executables found in repository:")
            :: (Lint.Stdout
                  <$> filter (flagged Lint.ascii_lower lint_world)
                        (Lint.splitlines
                           (lit "README.md" ++ [NL] ++ lit "bin/tool" ++ [NL]
                              ++ lit "assets/logo.png" ++ [NL]))),
          Lint.Return 1)).
Proof. apply (lint_main_report Lint.ascii_lower lint_world). reflexivity. Defined.

(** X11. The exit status of the lint is 0 or 1, and it is 0 exactly when git
    listed the tracked files and none of them is flagged. *)
Theorem lint_exit_status lower (w : Lint.world) :
  (Lint.exit_status lower w = 0 ∨ Lint.exit_status lower w = 1)
  ∧ (Lint.exit_status lower w = 0 ↔
       ∃ text, Lint.git_ls_files w = Lint.GitOutput text
               ∧ ∀ f, f ∈ Lint.splitlines text → ¬ flagged lower w f).
Proof.
  unfold Lint.exit_status.
  destruct (Lint.git_ls_files w) as [text|e|] eqn:Hgit.
  - unfold Lint.main. rewrite Hgit. cbv zeta. rewrite foldl_step. cbn [app].
    destruct (filter (flagged lower w) (Lint.splitlines text))
      as [|f found] eqn:Hfound; cbn [truthy snd].
    + split; [by left|]. split; [|done]. intros _. exists text. split; [done|].
      intros f Hf Hflag.
      assert (f ∈ filter (flagged lower w) (Lint.splitlines text)) as Hin
        by by apply list_elem_of_filter.
      rewrite Hfound in Hin. by apply not_elem_of_nil in Hin.
    + split; [by right|]. split; [done|].
      intros (text' & [= <-] & Hnone).
      assert (f ∈ filter (flagged lower w) (Lint.splitlines text))
        as [Hflag Hin]%list_elem_of_filter by (rewrite Hfound; left).
      by destruct (Hnone f).
  - unfold Lint.main. rewrite Hgit. cbn [snd].
    split; [by right|]. split; [done | by intros (? & [=] & _)].
  - unfold Lint.main. rewrite Hgit. cbn [snd].
    split; [by right|]. split; [done | by intros (? & [=] & _)].
Qed.

(** X12. A file whose last path component has no dot has no extension to
    excuse it: if it looks binary it is flagged, whatever directory it is
    in (a dot in a directory name does not count). *)
Theorem lint_no_extension lower (w : Lint.world) prefix base :
  lower [] = [] →
  dir_prefix prefix → Lint.DOT ∉ base → Lint.SLASH ∉ base →
  Lint.is_binary w (prefix ++ base) = true →
  flagged lower w (prefix ++ base).
Proof.
  intros Hlower Hprefix Hdot Hslash Hbin. split; [done|].
  rewrite splitext_no_dot by done. cbn [snd]. rewrite Hlower.
  apply (bool_decide_unpack _). by vm_compute.
Qed.

Lemma lint_no_extension_witness :
  flagged Lint.ascii_lower lint_world (lit "bin/" ++ lit "tool").
Proof.
  apply (lint_no_extension Lint.ascii_lower lint_world
           (lit "bin/") (lit "tool")).
  - reflexivity.
  - right. by exists (lit "bin").
  - apply (bool_decide_unpack _). by vm_compute.
  - apply (bool_decide_unpack _). by vm_compute.
  - reflexivity.
Defined.

(** X13. A file whose last path component is a non-empty name without dot
    followed by one of the allowed extensions is never flagged, whatever its
    bytes.  A file whose last component is such an extension alone (like
    [.png]) has no extension for [splitext] and is not excused: it is
    flagged exactly when it looks binary.  (Lowering is taken to leave the
    allowed extensions and the empty string as they are, as [str.lower]
    does.) *)
Theorem lint_allowed_extension lower (w : Lint.world) prefix name ext :
  (∀ e, e ∈ Lint.ALLOWED → lower e = e) → lower [] = [] →
  dir_prefix prefix →
  Lint.DOT ∉ name → Lint.SLASH ∉ name →
  ext ∈ Lint.ALLOWED →
  (name ≠ [] → ¬ flagged lower w (prefix ++ name ++ ext))
  ∧ (flagged lower w (prefix ++ ext)
     ↔ Lint.is_binary w (prefix ++ ext) = true).
Proof.
  intros Hlower Hempty Hprefix Hdot Hslash Hext.
  destruct (allowed_shape ext Hext) as (letters & -> & Hld & Hls). split.
  - intros Hname [_ Hflag].
    rewrite splitext_name_ext in Hflag by done. cbn [snd] in Hflag.
    rewrite Hlower in Hflag by done. done.
  - unfold flagged. rewrite splitext_only_ext by done. cbn [snd].
    rewrite Hempty. split; [by intros [? _]|]. intros Hbin. split; [done|].
    apply (bool_decide_unpack _). by vm_compute.
Qed.

Lemma lint_allowed_extension_witness :
  (lit "logo" ≠ [] →
   ¬ flagged Lint.ascii_lower lint_world
       (lit "assets/" ++ lit "logo" ++ lit ".png"))
  ∧ (flagged Lint.ascii_lower lint_world (lit "assets/" ++ lit ".png")
     ↔ Lint.is_binary lint_world (lit "assets/" ++ lit ".png") = true).
Proof.
  apply (lint_allowed_extension Lint.ascii_lower lint_world
           (lit "assets/") (lit "logo") (lit ".png")).
  - intros e He. unfold Lint.ALLOWED in He.
    repeat (apply elem_of_cons in He as [-> | He]; [reflexivity|]).
    by apply not_elem_of_nil in He.
  - reflexivity.
  - right. by exists (lit "assets").
  - apply (bool_decide_unpack _). by vm_compute.
  - apply (bool_decide_unpack _). by vm_compute.
  - apply (bool_decide_unpack _). by vm_compute.
Defined.
